(** * chirper: spreadsheet-to-Twitter bot

    A shallow embedding of [chirper.py]: the handle extractor, the discovery
    of spreadsheets on the drive, the extraction pass over the known files and
    the stage runner that tweets at every handle, together with the
    properties its specification states about them.

    Python values are modelled as follows.
    - [str] is a list of Unicode code points ([N]); literals are written
      [py "..."] and are ASCII only.
    - [BTrees.OOBTree.BTree] is an association list kept in key order; a
      [PersistentMapping] stored in it is a record, and the in-place mutation
      of such a mapping while [items()] is iterated is the update of the
      value at the current position.
    - The drive, the spreadsheet service, Twitter, the clock and the random
      module are collaborators: functions on an abstract world [W].
    - An exception is a [Raise] result; [with transaction.manager] commits
      the block's writes on normal exit and discards them on an exception.
    - A run that is interrupted from outside is a function of its own: the
      extraction killed at a given write, the stage runner interrupted in a
      pause of [send_tweet].
    - [print] and the timing of [time.time()] leave no trace in the model. *)

From Stdlib Require Import NArith ZArith Bool Lia String Ascii List Sorted.
Import ListNotations.

(** ** Python strings *)

Module PyStr.

Definition char := N.
Definition str := list char.

Definition py (s : string) : str :=
  List.map N_of_ascii (list_ascii_of_string s).
Arguments py s%_string.

(** [str.isspace] for one code point, the whitespace that [str.strip()]
    removes (CPython's [_PyUnicode_IsWhitespace]). *)
Definition isspace (c : char) : bool :=
  ((9 <=? c) && (c <=? 13) || (28 <=? c) && (c <=? 32)
   || (c =? 133) || (c =? 160) || (c =? 5760)
   || (8192 <=? c) && (c <=? 8202)
   || (c =? 8232) || (c =? 8233) || (c =? 8239) || (c =? 8287)
   || (c =? 12288))%N.

Fixpoint lstrip (s : str) : str :=
  match s with
  | [] => []
  | c :: s' => if isspace c then lstrip s' else s
  end.

Definition rstrip (s : str) : str := rev (lstrip (rev s)).

(** [s.strip()] *)
Definition strip (s : str) : str := rstrip (lstrip s).

(** [s.startswith(prefix)] *)
Fixpoint startswith (prefix s : str) : bool :=
  match prefix, s with
  | [], _ => true
  | _ :: _, [] => false
  | p :: prefix', c :: s' => (p =? c)%N && startswith prefix' s'
  end.

(** [sub in s] *)
Fixpoint contains (sub s : str) : bool :=
  match s with
  | [] => startswith sub []
  | _ :: s' => startswith sub s || contains sub s'
  end.

(** [s.split(sep)] for a separator of one character. *)
Fixpoint split (sep : char) (s : str) : list str :=
  match s with
  | [] => [[]]
  | c :: s' =>
      if (c =? sep)%N then [] :: split sep s'
      else match split sep s' with
           | [] => [[c]]
           | piece :: pieces => (c :: piece) :: pieces
           end
  end.

(** [s[n:]] *)
Definition slice_from (n : nat) (s : str) : str := skipn n s.

(** Truth value of a string: [not s] holds of the empty string only. *)
Definition truthy (s : str) : bool :=
  match s with [] => false | _ :: _ => true end.

(** [s[-1]], which raises [IndexError] on the empty string. *)
Fixpoint last_char (s : str) : option char :=
  match s with
  | [] => None
  | [c] => Some c
  | _ :: s' => last_char s'
  end.

(** Order of [str] values: by code point, position by position. *)
Fixpoint compare (a b : str) : comparison :=
  match a, b with
  | [], [] => Eq
  | [], _ :: _ => Lt
  | _ :: _, [] => Gt
  | x :: a', y :: b' =>
      match (x ?= y)%N with
      | Eq => compare a' b'
      | c => c
      end
  end.

Definition eqb (a b : str) : bool :=
  match compare a b with Eq => true | _ => false end.

Definition blank (s : str) : bool := forallb isspace s.

End PyStr.

Import PyStr.

(** ** Handle Extractor *)

Definition twitter_url_prefix : list str :=
  [py "https://twitter.com/"; py "http://twitter.com/"].

(** The innermost loop: [for prefix in twitter_url_prefix]. *)
Fixpoint prefix_loop (prefixes : list str) (url : str)
    (valid_handles : list str) : list str :=
  match prefixes with
  | [] => valid_handles
  | prefix :: rest =>
      if startswith prefix url then
        let handle := slice_from (List.length prefix) url in
        let handle :=
          if startswith (py "#!/") handle
          then slice_from (List.length (py "#!/")) handle else handle in
        prefix_loop rest url (valid_handles ++ [handle])
      else prefix_loop rest url valid_handles
  end.

(** [for url in urls] *)
Fixpoint urls_loop (urls : list str) (valid_handles : list str) : list str :=
  match urls with
  | [] => valid_handles
  | url :: rest =>
      urls_loop rest (prefix_loop twitter_url_prefix url valid_handles)
  end.

(** [for cell_content in twitter_urls], with its two [continue]s. *)
Fixpoint cells_loop (twitter_urls : list str) (valid_handles : list str)
    : list str :=
  match twitter_urls with
  | [] => valid_handles
  | cell_content :: rest =>
      if negb (truthy cell_content) then cells_loop rest valid_handles
      else if negb (contains (py "://") cell_content) then
        cells_loop rest (valid_handles ++ [strip cell_content])
      else
        let urls := List.map strip (split 44%N cell_content) in
        cells_loop rest (urls_loop urls valid_handles)
  end.

(** The handles of a column already fetched from the sheet. *)
Definition handles_of_cells (twitter_urls : list str) : list str :=
  cells_loop twitter_urls [].

(** The extractor on one cell: the loop body run on a column of one cell. *)
Definition extract (cellText : str) : list str :=
  handles_of_cells [cellText].

(** ** The durable store *)

(** [BTrees.OOBTree.BTree] keyed by [str]: the items in key order. *)
Module OOBTree.
Section Tree.
Variable V : Type.

Definition t := list (str * V).

Definition empty : t := [].

(** [m.get(k)] *)
Fixpoint get (k : str) (m : t) : option V :=
  match m with
  | [] => None
  | (k', v) :: m' => if PyStr.eqb k k' then Some v else get k m'
  end.

(** [k in m] *)
Definition mem (k : str) (m : t) : bool :=
  match get k m with Some _ => true | None => false end.

(** [m[k] = v] *)
Fixpoint set (k : str) (v : V) (m : t) : t :=
  match m with
  | [] => [(k, v)]
  | (k', v') :: m' =>
      match PyStr.compare k k' with
      | Lt => (k, v) :: m
      | Eq => (k, v) :: m'
      | Gt => (k', v') :: set k v m'
      end
  end.

(** [m.items()] *)
Definition items (m : t) : list (str * V) := m.

Definition keys (m : t) : list str := List.map fst m.
End Tree.
Arguments empty {V}.
Arguments get {V} k m.
Arguments mem {V} k m.
Arguments set {V} k v m.
Arguments items {V} m.
Arguments keys {V} m.
End OOBTree.

Definition timestamp := Z.

(** A file resource of the drive listing; only the keys the program reads. *)
Record DriveFile := {
  df_id : str;
  df_title : str;
  df_createdDate : str
}.

(** A value of [db.files]: [PersistentMapping(file)], to which the
    extraction pass adds the key ["processed"]. [fd_processed] is the truth
    value of [file_data.get("processed")]. *)
Record FileData := {
  fd_id : str;
  fd_title : str;
  fd_createdDate : str;
  fd_processed : bool
}.

(** A value of [db.twitter_handles]. A stage field is [None] while its key
    is absent; a [datetime] is always true, so [not handle_data.get(key)]
    holds exactly of [None]. *)
Record HandleData := {
  added : timestamp;
  imported : timestamp;
  sheet : str;
  first_tweet_at : option timestamp;
  second_tweet_at : option timestamp
}.

Record DB := {
  files : OOBTree.t FileData;
  twitter_handles : OOBTree.t HandleData
}.

(** What [get_database] creates when the storage is new. *)
Definition empty_db : DB :=
  {| files := OOBTree.empty; twitter_handles := OOBTree.empty |}.

(** [PersistentMapping(file)] *)
Definition PersistentMapping_of_file (file : DriveFile) : FileData :=
  {| fd_id := df_id file;
     fd_title := df_title file;
     fd_createdDate := df_createdDate file;
     fd_processed := false |}.

(** [file_data["processed"] = True] *)
Definition set_processed (file_data : FileData) : FileData :=
  {| fd_id := fd_id file_data;
     fd_title := fd_title file_data;
     fd_createdDate := fd_createdDate file_data;
     fd_processed := true |}.

(** [handle_data["first_tweet_at"] = now] *)
Definition set_first_tweet_at (now : timestamp) (d : HandleData) : HandleData :=
  {| added := added d; imported := imported d; sheet := sheet d;
     first_tweet_at := Some now; second_tweet_at := second_tweet_at d |}.

(** [handle_data["second_tweet_at"] = now] *)
Definition set_second_tweet_at (now : timestamp) (d : HandleData) : HandleData :=
  {| added := added d; imported := imported d; sheet := sheet d;
     first_tweet_at := first_tweet_at d; second_tweet_at := Some now |}.

(** ** Exceptions and collaborators *)

Inductive exn :=
| IndexError
| AttributeError
| RuntimeError (msg : str)
| ServiceError (msg : str)
| Interrupted.

Inductive result (A : Type) :=
| Ok (a : A)
| Raise (e : exn).
Arguments Ok {A} a.
Arguments Raise {A} e.

(** Outcome of [twitter.update_status]: the status is posted, or a
    [TweepError e] is raised. When [e.response] is there, [response_text] is
    [e.response.text] and [first_error_code] is
    [json.loads(e.response.text)["errors"][0]["code"]], [None] whenever that
    expression raises or the list of errors is empty (so for a text that is
    not JSON, the empty text among them); [reason] is [str(e)]. When
    [e.response] is [None] there is the reason only. *)
Inductive tweepy_result :=
| StatusPosted
| TweepError (first_error_code : option Z) (response_text : str)
    (reason : str)
| TweepErrorNoResponse (reason : str).

(** [resp["errors"][0]["code"] == 187], false when the response text has no
    such code. *)
Definition is_duplicate (first_error_code : option Z) : bool :=
  match first_error_code with
  | Some code => (code =? 187)%Z
  | None => false
  end.

(** The external services, the clock and the random module, as functions on
    a world [W] that they may change. [parse_date] and [isdigit] are the
    library functions [iso8601.parse_date] and [str.isdigit] (on one
    character, a table of Unicode). *)
Record Collaborators := {
  W : Type;
  drive_files_list : str -> W -> result (list DriveFile) * W;
  col_values : str -> Z -> W -> result (list str) * W;
  parse_date : str -> result timestamp;
  update_status : str -> W -> tweepy_result * W;
  utcnow : W -> timestamp * W;
  random_index : nat -> W -> nat * W;
  randint : Z -> Z -> W -> Z * W;
  sleep : Z -> W -> W;
  isdigit : char -> bool
}.

(** [with transaction.manager: body]. [S] is the persistent state the block
    writes, [V] whatever else it changes (the world, local variables); an
    exception leaves the block with the persistent state as it was. *)
Definition with_transaction {S V A : Type}
    (body : S -> V -> result A * S * V) (s : S) (v : V)
    : result A * S * V :=
  let '(r, s', v') := body s v in
  match r with
  | Ok a => (Ok a, s', v')
  | Raise e => (Raise e, s, v')
  end.

(** ** Configuration *)

Definition FIRST_TWEET_CHOICES : list str :=
  [py "WE AT MEGACORP THINK YOU MIGHT LIKE US - http://megacorp.example.com"].

Definition SECOND_TWEET_CHOICES : list str :=
  [py "AS WELL, WE ARE PROBABLY CHEAPER THAN COMPETITORCORP INC. http://megacorp.example.com/prices";
   py "AS WELL, OUR FEATURE SET IS LONGER THAN MISSISSIPPI http://megacorp.example.com/features";
   py "AS WELL, OUR CEO IS VERY HANDSOME http://megacorp.example.com/team"].

Definition MAX_TWEET_COUNT : nat := 10.

Definition DRIVE_FOLDER_ID : str := py "0BytechWnbrJVTlNqbGpWZllaYW8".

(** A tweet on record: whom it was for, which stage, its text and what
    Twitter answered. The runner keeps no such log; it is the trace of its
    calls to [send_tweet]. *)
Inductive stage := Stage1 | Stage2.

Record Event := {
  ev_handle : str;
  ev_stage : stage;
  ev_msg : str;
  ev_response : tweepy_result
}.

Section Chirper.
Context (C : Collaborators).

(** ** Discovery *)

(** [watch_files(http, title_match, folder_id)] *)
Definition watch_files (title_match folder_id : option str) (w : W C)
    : result (list DriveFile) * W C :=
  match folder_id with
  | Some (c :: f) =>
      drive_files_list C (py "'" ++ (c :: f) ++ py "' in parents") w
  | _ =>
      match title_match with
      | Some (c :: m) =>
          drive_files_list C (py "title contains '" ++ (c :: m) ++ py "'") w
      | _ => (Raise (RuntimeError (py "Unknown criteria")), w)
      end
  end.

(** The block under [with transaction.manager] in the discovery loop. *)
Definition discover_block (file : DriveFile)
    (files : OOBTree.t FileData) (discovered : bool)
    : result unit * OOBTree.t FileData * bool :=
  let file_id := df_id file in
  if negb (OOBTree.mem file_id files) then
    (Ok tt, OOBTree.set file_id (PersistentMapping_of_file file) files, true)
  else (Ok tt, files, discovered).

(** [for file in watch_files(...)] *)
Fixpoint scan_loop (listing : list DriveFile) (files : OOBTree.t FileData)
    (discovered : bool) : result unit * OOBTree.t FileData * bool :=
  match listing with
  | [] => (Ok tt, files, discovered)
  | file :: rest =>
      let title := df_title file in
      match last_char title with
      | None => (Raise IndexError, files, discovered)
      | Some last =>
          if negb (isdigit C last) then scan_loop rest files discovered
          else
            let '(_, files', discovered') :=
              with_transaction (discover_block file) files discovered in
            scan_loop rest files' discovered'
      end
  end.

Definition scan_for_new_spreadsheets (db : DB) (w : W C)
    : result unit * DB * W C :=
  match watch_files None (Some DRIVE_FOLDER_ID) w with
  | (Raise e, w1) => (Raise e, db, w1)
  | (Ok listing, w1) =>
      let '(r, files', _) := scan_loop listing (files db) false in
      (r, {| files := files'; twitter_handles := twitter_handles db |}, w1)
  end.

(** ** Extraction pass *)

(** [extract_twitter_handles(spread, sheet_id, column_id)] *)
Definition extract_twitter_handles (sheet_id : str) (column_id : char)
    (w : W C) : result (list str) * W C :=
  let col_index := (Z.of_N column_id - Z.of_N 65 + 1)%Z in
  match col_values C sheet_id col_index w with
  | (Raise e, w1) => (Raise e, w1)
  | (Ok twitter_urls, w1) => (Ok (handles_of_cells twitter_urls), w1)
  end.

(** [for handle in handles] inside the transaction. *)
Fixpoint import_loop (spreadsheet_creation_date : timestamp) (file_id : str)
    (handles : list str) (th : OOBTree.t HandleData) (w : W C)
    : OOBTree.t HandleData * W C :=
  match handles with
  | [] => (th, w)
  | handle :: rest =>
      if negb (OOBTree.mem handle th) then
        let '(now, w1) := utcnow C w in
        import_loop spreadsheet_creation_date file_id rest
          (OOBTree.set handle
             {| added := spreadsheet_creation_date; imported := now;
                sheet := file_id;
                first_tweet_at := None; second_tweet_at := None |} th)
          w1
      else import_loop spreadsheet_creation_date file_id rest th w
  end.

(** The type of the block that imports the handles of one file. *)
Definition import_block_type : Type :=
  timestamp -> str -> list str ->
  FileData * OOBTree.t HandleData -> W C ->
  result unit * (FileData * OOBTree.t HandleData) * W C.

(** The block under [with transaction.manager]: every handle, then the
    flag. Its persistent state is the file's mapping and the handle tree. *)
Definition import_block (spreadsheet_creation_date : timestamp)
    (file_id : str) (handles : list str)
    (s : FileData * OOBTree.t HandleData) (w : W C)
    : result unit * (FileData * OOBTree.t HandleData) * W C :=
  let '(th, w1) :=
    import_loop spreadsheet_creation_date file_id handles (snd s) w in
  (Ok tt, (set_processed (fst s), th), w1).

(** The same block in a run that dies inside it: [k] iterations of the loop
    are done when the process is interrupted, the flag is not reached. *)
Definition import_block_killed (k : nat)
    (spreadsheet_creation_date : timestamp)
    (file_id : str) (handles : list str)
    (s : FileData * OOBTree.t HandleData) (w : W C)
    : result unit * (FileData * OOBTree.t HandleData) * W C :=
  let '(th, w1) :=
    import_loop spreadsheet_creation_date file_id (firstn k handles)
      (snd s) w in
  (Raise Interrupted, (fst s, th), w1).

(** One iteration of [for file_id, file_data in db.files.items()], for a
    given transaction block. *)
Definition process_file_with (block : import_block_type)
    (file_id : str) (file_data : FileData)
    (th : OOBTree.t HandleData) (w : W C)
    : result unit * (FileData * OOBTree.t HandleData) * W C :=
  match parse_date C (fd_createdDate file_data) with
  | Raise e => (Raise e, (file_data, th), w)
  | Ok spreadsheet_creation_date =>
      if negb (fd_processed file_data) then
        match extract_twitter_handles file_id 76%N w with
        | (Raise e, w1) => (Raise e, (file_data, th), w1)
        | (Ok handles, w1) =>
            with_transaction
              (block spreadsheet_creation_date file_id handles)
              (file_data, th) w1
        end
      else (Ok tt, (file_data, th), w)
  end.

Definition process_file := process_file_with import_block.

(** The iteration in a run that is interrupted inside the transaction. *)
Definition process_file_killed (k : nat) :=
  process_file_with (import_block_killed k).

Fixpoint extract_loop (items : list (str * FileData))
    (th : OOBTree.t HandleData) (w : W C)
    : result unit * (list (str * FileData) * OOBTree.t HandleData) * W C :=
  match items with
  | [] => (Ok tt, ([], th), w)
  | (file_id, file_data) :: rest =>
      let '(r, (file_data', th'), w') :=
        process_file file_id file_data th w in
      match r with
      | Raise e => (Raise e, ((file_id, file_data') :: rest, th'), w')
      | Ok _ =>
          let '(r2, (rest', th''), w'') := extract_loop rest th' w' in
          (r2, ((file_id, file_data') :: rest', th''), w'')
      end
  end.

Definition extract_twitter_handles_from_spreadsheets (db : DB) (w : W C)
    : result unit * DB * W C :=
  let '(r, (files', th'), w') :=
    extract_loop (OOBTree.items (files db)) (twitter_handles db) w in
  (r, {| files := files'; twitter_handles := th' |}, w').

(** ** Stage runner *)

(** [send_tweet(twitter, msg)]. The message of the [RuntimeError] is
    formatted from [e.response.text or str(e)]; with no response at all,
    reading [e.response.text] raises [AttributeError], which the bare
    [except] swallows in the check for a duplicate and which the [raise]
    statement then raises itself. *)
Definition send_tweet (msg : str) (w : W C) : result unit * W C :=
  match update_status C msg w with
  | (StatusPosted, w1) =>
      let '(r, w2) := randint C 0 90 w1 in
      (Ok tt, sleep C (30 + r) w2)
  | (TweepError code text reason, w1) =>
      if is_duplicate code then
        let '(r, w2) := randint C 0 10 w1 in
        (Ok tt, sleep C (10 + r) w2)
      else
        (Raise (RuntimeError
                  (py "Twitter doesn't like us: " ++
                   (if truthy text then text else reason))), w1)
  | (TweepErrorNoResponse reason, w1) => (Raise AttributeError, w1)
  end.

(** [random.choice(seq)] *)
Definition random_choice (seq : list str) (w : W C) : str * W C :=
  let '(i, w1) := random_index C (List.length seq) w in
  (nth (i mod List.length seq) seq [], w1).

(** Send one stage to one handle: the text, the log line (which reads the
    clock), the tweet, the time stamp and the counter. *)
Definition tweet_stage (st : stage) (handle_id : str)
    (tweet_count : nat) (handle_data : HandleData)
    (v : W C * list Event) : result nat * HandleData * (W C * list Event) :=
  let '(w, log) := v in
  let '(text, w1) :=
    random_choice
      (match st with
       | Stage1 => FIRST_TWEET_CHOICES
       | Stage2 => SECOND_TWEET_CHOICES
       end) w in
  let tweet := py "@" ++ handle_id ++ py " " ++ text in
  let '(_, w2) := utcnow C w1 in
  let ev := {| ev_handle := handle_id; ev_stage := st; ev_msg := tweet;
               ev_response := fst (update_status C tweet w2) |} in
  match send_tweet tweet w2 with
  | (Raise e, w3) => (Raise e, handle_data, (w3, log ++ [ev]))
  | (Ok _, w3) =>
      let '(now, w4) := utcnow C w3 in
      (Ok (S tweet_count),
       match st with
       | Stage1 => set_first_tweet_at now handle_data
       | Stage2 => set_second_tweet_at now handle_data
       end,
       (w4, log ++ [ev]))
  end.

(** The block under [with transaction.manager] in the runner's loop. *)
Definition tweet_block (handle_id : str) (tweet_count : nat)
    (handle_data : HandleData) (v : W C * list Event)
    : result nat * HandleData * (W C * list Event) :=
  match first_tweet_at handle_data with
  | None => tweet_stage Stage1 handle_id tweet_count handle_data v
  | Some _ =>
      match second_tweet_at handle_data with
      | None => tweet_stage Stage2 handle_id tweet_count handle_data v
      | Some _ => (Ok tweet_count, handle_data, v)
      end
  end.

(** [for handle_id, handle_data in db.twitter_handles.items()], with the
    [break] once the counter reaches the cap. *)
Fixpoint tweet_loop (items : list (str * HandleData)) (tweet_count : nat)
    (v : W C * list Event)
    : result unit * list (str * HandleData) * (W C * list Event) :=
  match items with
  | [] => (Ok tt, [], v)
  | (handle_id, handle_data) :: rest =>
      let '(r, handle_data', v') :=
        with_transaction (tweet_block handle_id tweet_count) handle_data v in
      match r with
      | Raise e => (Raise e, (handle_id, handle_data') :: rest, v')
      | Ok tweet_count' =>
          if MAX_TWEET_COUNT <=? tweet_count' then
            (Ok tt, (handle_id, handle_data') :: rest, v')
          else
            let '(r2, rest', v'') := tweet_loop rest tweet_count' v' in
            (r2, (handle_id, handle_data') :: rest', v'')
      end
  end.

(** [tweet_everything(twitter, db)]: the outcome, the store, and the world
    with the tweets of this run. *)
Definition tweet_everything (db : DB) (w : W C)
    : result unit * DB * (W C * list Event) :=
  let '(r, th', v) :=
    tweet_loop (OOBTree.items (twitter_handles db)) 0 (w, []) in
  (r, {| files := files db; twitter_handles := th' |}, v).

(** [main()], from the opened database on. *)
Definition main (db : DB) (w : W C)
    : result unit * DB * (W C * list Event) :=
  match scan_for_new_spreadsheets db w with
  | (Raise e, db1, w1) => (Raise e, db1, (w1, []))
  | (Ok _, db1, w1) =>
      match extract_twitter_handles_from_spreadsheets db1 w1 with
      | (Raise e, db2, w2) => (Raise e, db2, (w2, []))
      | (Ok _, db2, w2) => tweet_everything db2 w2
      end
  end.

End Chirper.

(** ** Derived notions used by the properties *)

(** The outcome and the store of a run, out of what it returns. *)
Definition outcome {A S V : Type} (x : result A * S * V) : result A :=
  fst (fst x).
Definition store {A S V : Type} (x : result A * S * V) : S := snd (fst x).

(** The file registry after the transaction of one accepted file. *)
Definition discovered_files (file : DriveFile) (files : OOBTree.t FileData)
    : OOBTree.t FileData :=
  if OOBTree.mem (df_id file) files then files
  else OOBTree.set (df_id file) (PersistentMapping_of_file file) files.

(** A file the extraction pass has nothing left to do for. *)
Definition settled (C : Collaborators) (kv : str * FileData) : Prop :=
  fd_processed (snd kv) = true /\
  exists date, parse_date C (fd_createdDate (snd kv)) = Ok date.

(** The stage field a tweet of stage [st] records. *)
Definition stage_field (st : stage) (d : HandleData) : option timestamp :=
  match st with
  | Stage1 => first_tweet_at d
  | Stage2 => second_tweet_at d
  end.

Definition set_stage_field (st : stage) (now : timestamp) (d : HandleData)
    : HandleData :=
  match st with
  | Stage1 => set_first_tweet_at now d
  | Stage2 => set_second_tweet_at now d
  end.

(** A handle the runner still has a message for. *)
Definition eligible (d : HandleData) : bool :=
  match first_tweet_at d, second_tweet_at d with
  | Some _, Some _ => false
  | _, _ => true
  end.

Definition count_eligible (items : list (str * HandleData)) : nat :=
  List.length (filter (fun kv => eligible (snd kv)) items).

(** [second_tweet_at] implies [first_tweet_at]. *)
Definition stage_inv (d : HandleData) : Prop :=
  second_tweet_at d <> None -> first_tweet_at d <> None.

(** Twitter took the tweet or called it a duplicate: [send_tweet] returns. *)
Definition accepted (r : tweepy_result) : bool :=
  match r with
  | StatusPosted => true
  | TweepError code _ _ => is_duplicate code
  | TweepErrorNoResponse _ => false
  end.


(** Whom and which stage the tweets of a log were for. *)
Definition targets (log : list Event) : list (str * stage) :=
  List.map (fun ev => (ev_handle ev, ev_stage ev)) log.



(** The specification's reading of a comma-separated cell: one handle for a
    piece that starts with a profile prefix, none for any other piece. *)
Definition spec_strip_fragment (handle : str) : str :=
  if startswith (py "#!/") handle then slice_from 3 handle else handle.

Definition spec_handle_of_piece (piece : str) : option str :=
  if startswith (py "https://twitter.com/") piece then
    Some (spec_strip_fragment (slice_from 20 piece))
  else if startswith (py "http://twitter.com/") piece then
    Some (spec_strip_fragment (slice_from 19 piece))
  else None.

Definition spec_extract_urls (cellText : str) : list str :=
  flat_map
    (fun piece =>
       match spec_handle_of_piece piece with
       | Some handle => [handle]
       | None => []
       end)
    (List.map strip (split 44%N cellText)).

(** What one run of the runner's loop may do to the items, and the tweets
    it leaves: a handle whose stage field is empty gets that stage and the
    field is written when Twitter accepted the tweet; the run ends at a
    refused tweet, or anywhere with the rest untouched. *)
Inductive Trace
  : list (str * HandleData) -> list (str * HandleData) -> list Event -> Prop :=
| trace_stop : forall items, Trace items items []
| trace_skip : forall h d items items' evs,
    eligible d = false ->
    Trace items items' evs ->
    Trace ((h, d) :: items) ((h, d) :: items') evs
| trace_sent : forall h d st now ev items items' evs,
    stage_field st d = None ->
    (st = Stage1 \/ first_tweet_at d <> None) ->
    ev_handle ev = h -> ev_stage ev = st ->
    accepted (ev_response ev) = true ->
    Trace items items' evs ->
    Trace ((h, d) :: items) ((h, set_stage_field st now d) :: items')
          (ev :: evs)
| trace_refused : forall h d st ev items,
    stage_field st d = None ->
    ev_handle ev = h -> ev_stage ev = st ->
    accepted (ev_response ev) = false ->
    Trace ((h, d) :: items) ((h, d) :: items) [ev].

Section Reach.
Context (C : Collaborators).

(** The tweets of a run of the stage runner. *)
Definition tweets_of {A S : Type} (x : result A * S * (W C * list Event))
    : list Event := snd (snd x).

(** One phase of the program, run in any world, on a store and the log of
    the tweets sent so far. *)
Inductive Step : DB * list Event -> DB * list Event -> Prop :=
| step_scan : forall db log w,
    Step (db, log) (store (scan_for_new_spreadsheets C db w), log)
| step_extract : forall db log w,
    Step (db, log)
         (store (extract_twitter_handles_from_spreadsheets C db w), log)
| step_tweet : forall db log w,
    Step (db, log)
         (store (tweet_everything C db w),
          log ++ tweets_of (tweet_everything C db w)).

(** Any number of phases, one after the other. *)
Inductive Reaches : DB * list Event -> DB * list Event -> Prop :=
| reaches_refl : forall s, Reaches s s
| reaches_step : forall s s' s'',
    Step s s' -> Reaches s' s'' -> Reaches s s''.

(** The stores the program can reach from a new database, with the tweets
    sent on the way. *)
Definition Reachable (db : DB) (log : list Event) : Prop :=
  Reaches (empty_db, []) (db, log).

End Reach.
Arguments tweets_of {C A S} x.

(** How the runner may change a record: a stage field that is set stays as
    it is, the invariant is kept, a record with both stages sent and the
    provenance fields are not touched. *)
Definition progress (d d' : HandleData) : Prop :=
  (forall st t, stage_field st d = Some t -> stage_field st d' = Some t) /\
  (stage_inv d -> stage_inv d') /\
  (eligible d = false -> d' = d) /\
  added d' = added d /\ imported d' = imported d /\ sheet d' = sheet d.

(** The items of a tree are in the order of their keys, each key once. *)
Definition in_key_order {V : Type} (m : OOBTree.t V) : Prop :=
  StronglySorted (fun a b => PyStr.compare a b = Lt) (OOBTree.keys m).

Definition well_formed (db : DB) : Prop :=
  in_key_order (files db) /\ in_key_order (twitter_handles db).

(** How the extraction pass may change the handle registry: it keeps the
    key order and the records it finds and adds records with no stage
    sent, under new keys. *)
Definition Grows (th th' : OOBTree.t HandleData) : Prop :=
  (in_key_order th -> in_key_order th') /\
  (NoDup (OOBTree.keys th) -> NoDup (OOBTree.keys th')) /\
  (forall x, In x th -> In x th') /\
  (forall h d, In (h, d) th' ->
     In (h, d) th \/ (first_tweet_at d = None /\ second_tweet_at d = None)).



(** ** The stage runner, interrupted *)

Section Interrupts.
Context (C : Collaborators).


(** [tweet_stage] and [tweet_block], for a given way [send] the call of
    [send_tweet] goes. *)
Definition tweet_stage_with (send : str -> W C -> result unit * W C)
    (st : stage) (handle_id : str)
    (tweet_count : nat) (handle_data : HandleData)
    (v : W C * list Event) : result nat * HandleData * (W C * list Event) :=
  let '(w, log) := v in
  let '(text, w1) :=
    random_choice C
      (match st with
       | Stage1 => FIRST_TWEET_CHOICES
       | Stage2 => SECOND_TWEET_CHOICES
       end) w in
  let tweet := py "@" ++ handle_id ++ py " " ++ text in
  let '(_, w2) := utcnow C w1 in
  let ev := {| ev_handle := handle_id; ev_stage := st; ev_msg := tweet;
               ev_response := fst (update_status C tweet w2) |} in
  match send tweet w2 with
  | (Raise e, w3) => (Raise e, handle_data, (w3, log ++ [ev]))
  | (Ok _, w3) =>
      let '(now, w4) := utcnow C w3 in
      (Ok (S tweet_count),
       match st with
       | Stage1 => set_first_tweet_at now handle_data
       | Stage2 => set_second_tweet_at now handle_data
       end,
       (w4, log ++ [ev]))
  end.

Definition tweet_block_with (send : str -> W C -> result unit * W C)
    (handle_id : str) (tweet_count : nat)
    (handle_data : HandleData) (v : W C * list Event)
    : result nat * HandleData * (W C * list Event) :=
  match first_tweet_at handle_data with
  | None => tweet_stage_with send Stage1 handle_id tweet_count handle_data v
  | Some _ =>
      match second_tweet_at handle_data with
      | None =>
          tweet_stage_with send Stage2 handle_id tweet_count handle_data v
      | Some _ => (Ok tweet_count, handle_data, v)
      end
  end.






End Interrupts.



(** ** Worlds and stores for examples *)

(** The world is a counter of the calls made so far; the clock shows it.
    The drive lists [listing], fetching column [L] of any sheet gives
    [column], and Twitter answers the call made at world [w] with
    [answers w]. Dates parse, to 2015; digits are the ASCII ones. *)
Definition example_world (listing : list DriveFile)
    (column : result (list str)) (answers : nat -> tweepy_result)
    : Collaborators :=
  {| W := nat;
     drive_files_list := fun _ w => (Ok listing, S w);
     col_values := fun _ _ w => (column, S w);
     parse_date := fun _ => Ok 2015%Z;
     update_status := fun _ w => (answers w, S w);
     utcnow := fun w => (Z.of_nat w, S w);
     random_index := fun _ w => (w, S w);
     randint := fun lo _ w => (lo, S w);
     sleep := fun _ w => S w;
     isdigit := fun c => ((48 <=? c) && (c <=? 57))%N |}.

Definition drive_file (file_id title : string) : DriveFile :=
  {| df_id := py file_id; df_title := py title;
     df_createdDate := py "2015-06-01T12:00:00.000Z" |}.

Definition example_listing : list DriveFile :=
  [drive_file "F1" "leads 1"; drive_file "P" "photo.png";
   drive_file "F2" "leads 2"].

(** A world where everything works: column [L] holds the cell of the
    scenario and Twitter posts every status. *)
Definition working : Collaborators :=
  example_world example_listing
    (Ok [py "https://twitter.com/foo, bar"]) (fun _ => StatusPosted).

(** A world where Twitter calls every status a duplicate. *)
Definition duplicating : Collaborators :=
  example_world example_listing
    (Ok [py "https://twitter.com/foo, bar"])
    (fun _ => TweepError (Some 187%Z) (py "Status is a duplicate.")
                (py "Status is a duplicate.")).

(** A world where the sheet cannot be fetched. *)
Definition unreadable : Collaborators :=
  example_world example_listing
    (Raise (ServiceError (py "APIError"))) (fun _ => StatusPosted).

Definition file_F1 : FileData :=
  PersistentMapping_of_file (drive_file "F1" "leads 1").

Definition db_F1 : DB :=
  {| files := [(py "F1", file_F1)]; twitter_handles := [] |}.

Definition new_handle : HandleData :=
  {| added := 2015%Z; imported := 1%Z; sheet := py "F1";
     first_tweet_at := None; second_tweet_at := None |}.

Definition db_two_handles : DB :=
  {| files := [(py "F1", set_processed file_F1)];
     twitter_handles := [(py "bar", new_handle); (py "foo", new_handle)] |}.


(** A world where the column of the sheet is one cell of two spaces, and
    the store after discovery and extraction there. *)
Definition blank_sheet : Collaborators :=
  example_world example_listing (Ok [py "  "]) (fun _ => StatusPosted).

Definition blank_extracted : DB :=
  store (extract_twitter_handles_from_spreadsheets blank_sheet
           (store (scan_for_new_spreadsheets blank_sheet empty_db 0%nat))
           0%nat).

(** Three runs of the program's phases from a new database. *)
Definition demo_scanned : DB :=
  store (scan_for_new_spreadsheets working empty_db 0%nat).
Definition demo_extracted : DB :=
  store (extract_twitter_handles_from_spreadsheets working demo_scanned 0%nat).
Definition demo_run1 := tweet_everything working demo_extracted 0%nat.
Definition demo_run2 := tweet_everything working (store demo_run1) 0%nat.
Definition demo_run3 := tweet_everything working (store demo_run2) 0%nat.

(** A world where Twitter posts the first status of a run and refuses the
    later ones with an error that is not a duplicate. *)
Definition refusing : Collaborators :=
  example_world example_listing
    (Ok [py "https://twitter.com/foo, bar"])
    (fun w => if (w <? 6)%nat then StatusPosted
              else TweepError (Some 185%Z)
                     (py "User is over daily status update limit.")
                     (py "Over limit."))%string.

(** The file [F1] still to be processed, and ["foo"] registered with its
    first stage sent. *)
Definition db_foo_sent : DB :=
  {| files := [(py "F1", file_F1)];
     twitter_handles :=
       [(py "foo", set_first_tweet_at 5%Z new_handle)] |}.


(** ** Notions for the further properties *)

(** The candidate texts of a stage. *)
Definition stage_choices (st : stage) : list str :=
  match st with
  | Stage1 => FIRST_TWEET_CHOICES
  | Stage2 => SECOND_TWEET_CHOICES
  end.

(** The stage the runner sends to a handle that is due one: the branch of
    [if not handle_data.get("first_tweet_at") ... elif ...] it takes. *)
Definition due_stage (d : HandleData) : stage :=
  match first_tweet_at d with
  | None => Stage1
  | Some _ => Stage2
  end.

(** A tweet as the runner composes it:
    ["@{} {}".format(handle_id, random.choice(...))]. *)
Definition composed (ev : Event) : Prop :=
  exists text,
    In text (stage_choices (ev_stage ev)) /\
    ev_msg ev = py "@" ++ ev_handle ev ++ py " " ++ text.

(** What a tweet that is not accepted makes [send_tweet] raise: with a
    response, the [RuntimeError] whose message ends in the response text,
    or in [str(e)] when that text is empty; with none, [AttributeError]. *)
Definition refusal (r : tweepy_result) : option exn :=
  match r with
  | StatusPosted => None
  | TweepError code text reason =>
      if is_duplicate code then None
      else Some (RuntimeError
                   (py "Twitter doesn't like us: " ++
                    (if truthy text then text else reason)))
  | TweepErrorNoResponse reason => Some AttributeError
  end.

(** A run of the runner's loop in full: the items before and after, the
    tweets and the outcome. A handle with both stages sent is passed over;
    a handle due a stage gets the tweet of that stage, composed from a
    candidate, and its field is written unless Twitter refuses the tweet,
    which ends the run with the exception of the refusal; the run may also
    end anywhere with the rest untouched. *)
Inductive Run
  : list (str * HandleData) -> list (str * HandleData) -> list Event ->
    result unit -> Prop :=
| run_stop : forall items, Run items items [] (Ok tt)
| run_skip : forall h d items items' evs r,
    eligible d = false ->
    Run items items' evs r ->
    Run ((h, d) :: items) ((h, d) :: items') evs r
| run_sent : forall h d now ev items items' evs r,
    eligible d = true ->
    ev_handle ev = h -> ev_stage ev = due_stage d -> composed ev ->
    refusal (ev_response ev) = None ->
    Run items items' evs r ->
    Run ((h, d) :: items)
        ((h, set_stage_field (due_stage d) now d) :: items') (ev :: evs) r
| run_refused : forall h d ev e items,
    eligible d = true ->
    ev_handle ev = h -> ev_stage ev = due_stage d -> composed ev ->
    refusal (ev_response ev) = Some e ->
    Run ((h, d) :: items) ((h, d) :: items) [ev] (Raise e).

(** Two states of a file's mapping that differ at most in that the second
    is marked processed. *)
Definition same_file (fd fd' : FileData) : Prop :=
  fd_id fd' = fd_id fd /\ fd_title fd' = fd_title fd /\
  fd_createdDate fd' = fd_createdDate fd /\
  (fd_processed fd = true -> fd_processed fd' = true).

(** The naming convention of discovery: the title ends in a digit. *)
Definition accepted_title (C : Collaborators) (file : DriveFile) : bool :=
  match last_char (df_title file) with
  | Some last => isdigit C last
  | None => false
  end.

(** Every handle record points at a file of the registry that is marked
    processed and whose creation date is the record's [added]. *)
Definition provenance (C : Collaborators) (db : DB) : Prop :=
  forall h d,
    OOBTree.get h (twitter_handles db) = Some d ->
    exists fd,
      OOBTree.get (sheet d) (files db) = Some fd /\
      fd_processed fd = true /\
      parse_date C (fd_createdDate fd) = Ok (added d).

(** [provenance], over the items rather than by lookup. *)
Definition prov_items (C : Collaborators)
    (fs : OOBTree.t FileData) (th : OOBTree.t HandleData) : Prop :=
  forall h d,
    In (h, d) th ->
    exists fd,
      In (sheet d, fd) fs /\ fd_processed fd = true /\
      parse_date C (fd_createdDate fd) = Ok (added d).

(** The program run once in each world of [ws], one run after the other, on
    a store and the log of the tweets sent so far. *)
Fixpoint runs (C : Collaborators) (ws : list (W C)) (s : DB * list Event)
    : DB * list Event :=
  match ws with
  | [] => s
  | w :: ws' =>
      runs C ws'
        (store (main C (fst s) w), snd s ++ tweets_of (main C (fst s) w))
  end.

(** * Properties *)

(** ** Strings and trees *)

Lemma compare_eq_iff (a b : str) : PyStr.compare a b = Eq <-> a = b.
Proof.
  revert b; induction a as [|x a IH]; intros [|y b]; simpl;
    try (split; (reflexivity || discriminate)).
  destruct (N.compare_spec x y) as [E|L|G].
  - subst y. rewrite IH. split; congruence.
  - split; [discriminate|]. intros H; injection H as -> _. lia.
  - split; [discriminate|]. intros H; injection H as -> _. lia.
Qed.

Lemma compare_antisym (a b : str) :
  PyStr.compare b a = CompOpp (PyStr.compare a b).
Proof.
  revert b; induction a as [|x a IH]; intros [|y b]; simpl; try reflexivity.
  rewrite (N.compare_antisym x y). destruct (x ?= y)%N; simpl; auto.
Qed.

Lemma compare_lt_trans (a b c : str) :
  PyStr.compare a b = Lt -> PyStr.compare b c = Lt -> PyStr.compare a c = Lt.
Proof.
  revert b c; induction a as [|x a IH]; intros [|y b] [|z c]; simpl;
    try discriminate; auto.
  destruct (N.compare_spec x y) as [Exy|Hxy|Hxy]; try discriminate;
    destruct (N.compare_spec y z) as [Eyz|Hyz|Hyz]; try discriminate;
    intros H1 H2.
  - subst. rewrite N.compare_refl. eauto.
  - subst. apply N.compare_lt_iff in Hyz. rewrite Hyz. reflexivity.
  - subst. apply N.compare_lt_iff in Hxy. rewrite Hxy. reflexivity.
  - assert (Hxz : (x < z)%N) by lia.
    apply N.compare_lt_iff in Hxz. rewrite Hxz. reflexivity.
Qed.

Lemma eqb_eq (a b : str) : PyStr.eqb a b = true <-> a = b.
Proof.
  unfold PyStr.eqb. rewrite <- compare_eq_iff.
  destruct (PyStr.compare a b); split; congruence.
Qed.

Lemma eqb_refl (a : str) : PyStr.eqb a a = true.
Proof. apply eqb_eq; reflexivity. Qed.

Lemma eqb_neq (a b : str) : PyStr.eqb a b = false <-> a <> b.
Proof.
  rewrite <- eqb_eq. destruct (PyStr.eqb a b); split; congruence.
Qed.

Lemma lstrip_blank (s : str) : blank s = true -> lstrip s = [].
Proof.
  induction s as [|c s IH]; simpl; [reflexivity|].
  intros H; apply andb_true_iff in H as [Hc Hs]. rewrite Hc; auto.
Qed.

Lemma strip_blank (s : str) : blank s = true -> strip s = [].
Proof. intros H. unfold strip. rewrite lstrip_blank by assumption. reflexivity. Qed.

Lemma contains_nil (sub : str) : sub <> [] -> contains sub [] = false.
Proof. destruct sub; [congruence|reflexivity]. Qed.

Section TreeFacts.
Context {V : Type}.
Implicit Types (m : OOBTree.t V) (k : str) (v : V).

Lemma get_set_same k v m : OOBTree.get k (OOBTree.set k v m) = Some v.
Proof.
  induction m as [|[k' v'] m IH]; simpl.
  - rewrite eqb_refl; reflexivity.
  - destruct (PyStr.compare k k') eqn:E; simpl.
    + rewrite eqb_refl; reflexivity.
    + rewrite eqb_refl; reflexivity.
    + unfold PyStr.eqb at 1; rewrite E. exact IH.
Qed.

Lemma get_set_other k k0 v m :
  k0 <> k -> OOBTree.get k0 (OOBTree.set k v m) = OOBTree.get k0 m.
Proof.
  intros Hne. apply eqb_neq in Hne.
  induction m as [|[k' v'] m IH]; simpl.
  - rewrite Hne; reflexivity.
  - destruct (PyStr.compare k k') eqn:E; simpl.
    + apply compare_eq_iff in E; subst k'. rewrite Hne; reflexivity.
    + rewrite Hne; reflexivity.
    + rewrite IH; reflexivity.
Qed.

Lemma mem_set_same k v m : OOBTree.mem k (OOBTree.set k v m) = true.
Proof. unfold OOBTree.mem. rewrite get_set_same; reflexivity. Qed.

Lemma mem_set_other k k0 v m :
  k0 <> k -> OOBTree.mem k0 (OOBTree.set k v m) = OOBTree.mem k0 m.
Proof. intros H. unfold OOBTree.mem. rewrite get_set_other by assumption; reflexivity. Qed.

Lemma mem_set_mono k k0 v m :
  OOBTree.mem k0 m = true -> OOBTree.mem k0 (OOBTree.set k v m) = true.
Proof.
  intros H. destruct (PyStr.eqb k0 k) eqn:E.
  - apply eqb_eq in E; subst; apply mem_set_same.
  - apply eqb_neq in E. rewrite mem_set_other; assumption.
Qed.

Lemma get_In k v m : OOBTree.get k m = Some v -> In (k, v) m.
Proof.
  induction m as [|[k' v'] m IH]; simpl; [discriminate|].
  destruct (PyStr.eqb k k') eqn:E.
  - apply eqb_eq in E; subst. intros [= ->]; auto.
  - auto.
Qed.

Lemma In_get k v m :
  NoDup (OOBTree.keys m) -> In (k, v) m -> OOBTree.get k m = Some v.
Proof.
  induction m as [|[k' v'] m IH]; simpl; [tauto|].
  intros ND [H|H].
  - injection H as -> ->. rewrite eqb_refl; reflexivity.
  - inversion ND as [|? ? Hk ND']; subst.
    destruct (PyStr.eqb k k') eqn:E.
    + apply eqb_eq in E; subst k'. exfalso; apply Hk.
      apply (in_map fst) in H; exact H.
    + auto.
Qed.

Lemma mem_In_keys k m : OOBTree.mem k m = true <-> In k (OOBTree.keys m).
Proof.
  unfold OOBTree.mem. induction m as [|[k' v'] m IH]; simpl.
  - split; [discriminate|tauto].
  - destruct (PyStr.eqb k k') eqn:E.
    + apply eqb_eq in E; subst; tauto.
    + apply eqb_neq in E. rewrite IH. split; [tauto|].
      intros [H|H]; [congruence|assumption].
Qed.

Lemma keys_set k v m k0 :
  In k0 (OOBTree.keys (OOBTree.set k v m)) <-> k0 = k \/ In k0 (OOBTree.keys m).
Proof.
  induction m as [|[k' v'] m IH]; simpl.
  - intuition congruence.
  - destruct (PyStr.compare k k') eqn:E; simpl.
    + apply compare_eq_iff in E; subst k'. intuition congruence.
    + intuition congruence.
    + rewrite IH. intuition congruence.
Qed.

Lemma NoDup_keys_set k v m :
  NoDup (OOBTree.keys m) -> OOBTree.mem k m = false ->
  NoDup (OOBTree.keys (OOBTree.set k v m)).
Proof.
  intros ND Hk.
  assert (Hn : ~ In k (OOBTree.keys m)).
  { rewrite <- mem_In_keys. congruence. }
  clear Hk. induction m as [|[k' v'] m IH]; simpl.
  - constructor; [simpl; tauto|constructor].
  - inversion ND as [|? ? Hk' ND']; subst.
    destruct (PyStr.compare k k') eqn:E; simpl.
    + apply compare_eq_iff in E; subst k'. simpl in Hn; tauto.
    + constructor; assumption.
    + constructor.
      * rewrite keys_set. simpl in Hn. intros [H|H]; [subst; tauto|auto].
      * apply IH; [assumption|]. simpl in Hn; tauto.
Qed.

Lemma set_in_key_order k v m :
  in_key_order m -> in_key_order (OOBTree.set k v m).
Proof.
  unfold in_key_order. induction m as [|[k' v'] m IH]; intros Hs.
  - repeat constructor.
  - change (OOBTree.keys ((k', v') :: m)) with (k' :: OOBTree.keys m) in Hs.
    apply StronglySorted_inv in Hs as [Hs Hall]. cbn [OOBTree.set].
    destruct (PyStr.compare k k') eqn:E.
    + apply compare_eq_iff in E; subst k'.
      change (StronglySorted (fun a b => PyStr.compare a b = Lt)
                (k :: OOBTree.keys m)).
      constructor; assumption.
    + change (StronglySorted (fun a b => PyStr.compare a b = Lt)
                (k :: k' :: OOBTree.keys m)).
      constructor; [constructor; assumption|].
      constructor; [exact E|].
      eapply Forall_impl; [|exact Hall].
      intros x Hx. eapply compare_lt_trans; eassumption.
    + change (StronglySorted (fun a b => PyStr.compare a b = Lt)
                (k' :: OOBTree.keys (OOBTree.set k v m))).
      constructor; [apply IH; exact Hs|].
      apply Forall_forall. intros x Hx.
      apply keys_set in Hx as [Hx|Hx].
      * subst x. rewrite (compare_antisym k k'), E. reflexivity.
      * rewrite Forall_forall in Hall. apply Hall. exact Hx.
Qed.

End TreeFacts.

(** ** Handle Extractor *)

Lemma startswith_nth_error (prefix s : str) :
  startswith prefix s = true ->
  forall i c, nth_error prefix i = Some c -> nth_error s i = Some c.
Proof.
  revert s; induction prefix as [|p prefix IH]; intros s H i c Hi.
  - destruct i; discriminate.
  - destruct s as [|x s]; [discriminate|]. simpl in H.
    apply andb_true_iff in H as [Hp Hs]. apply N.eqb_eq in Hp; subst x.
    destruct i as [|i]; simpl in *; [assumption|eauto].
Qed.

(** No text starts with both profile prefixes: they differ at the fifth
    character. *)
Lemma prefixes_exclusive (url : str) :
  startswith (py "https://twitter.com/") url = true ->
  startswith (py "http://twitter.com/") url = false.
Proof.
  intros Hs. destruct (startswith (py "http://twitter.com/") url) eqn:Hp;
    [|reflexivity].
  pose proof (startswith_nth_error _ _ Hs 4 115%N eq_refl) as A.
  pose proof (startswith_nth_error _ _ Hp 4 58%N eq_refl) as B.
  congruence.
Qed.

Lemma prefix_loop_acc (prefixes : list str) (url : str) (acc : list str) :
  prefix_loop prefixes url acc = acc ++ prefix_loop prefixes url [].
Proof.
  revert acc; induction prefixes as [|p ps IH]; intros acc; simpl.
  - rewrite app_nil_r; reflexivity.
  - destruct (startswith p url).
    + rewrite IH, (IH [_]), app_assoc. reflexivity.
    + apply IH.
Qed.

Lemma urls_loop_acc (urls : list str) (acc : list str) :
  urls_loop urls acc =
  acc ++ flat_map (fun url => prefix_loop twitter_url_prefix url []) urls.
Proof.
  revert acc; induction urls as [|u us IH]; intros acc;
    cbn [urls_loop flat_map].
  - rewrite app_nil_r; reflexivity.
  - rewrite IH, prefix_loop_acc, <- app_assoc. reflexivity.
Qed.

Lemma extract_unfold (c : str) :
  extract c =
  if negb (truthy c) then []
  else if negb (contains (py "://") c) then [strip c]
  else urls_loop (List.map strip (split 44%N c)) [].
Proof. reflexivity. Qed.

Lemma cells_loop_acc (cells : list str) (acc : list str) :
  cells_loop cells acc = acc ++ flat_map extract cells.
Proof.
  revert acc; induction cells as [|c cs IH]; intros acc.
  - simpl. rewrite app_nil_r; reflexivity.
  - cbn [cells_loop flat_map]. rewrite extract_unfold.
    destruct (negb (truthy c)); [apply IH|].
    destruct (negb (contains (py "://") c)).
    + rewrite IH, <- app_assoc. reflexivity.
    + rewrite IH, urls_loop_acc, (urls_loop_acc _ []), <- app_assoc.
      reflexivity.
Qed.

(** The handles of a column are those of its cells, in order. *)
Lemma handles_of_cells_flat_map (cells : list str) :
  handles_of_cells cells = flat_map extract cells.
Proof. unfold handles_of_cells. rewrite cells_loop_acc. reflexivity. Qed.

Lemma prefix_loop_spec (url : str) :
  prefix_loop twitter_url_prefix url [] =
  match spec_handle_of_piece url with
  | Some handle => [handle]
  | None => []
  end.
Proof.
  unfold twitter_url_prefix, spec_handle_of_piece, spec_strip_fragment.
  cbn [prefix_loop].
  destruct (startswith (py "https://twitter.com/") url) eqn:Hs.
  - rewrite (prefixes_exclusive _ Hs). reflexivity.
  - destruct (startswith (py "http://twitter.com/") url); reflexivity.
Qed.

(** X13: a cell text without ["://"] that is not empty gives exactly one
    handle, the trimmed text, which for a cell of whitespace only is the
    empty handle; the empty cell text gives no handle. *)
Theorem extract_plain_cell (cellText : str) :
  contains (py "://") cellText = false ->
  (cellText <> [] -> extract cellText = [strip cellText]) /\
  (cellText <> [] -> blank cellText = true -> extract cellText = [[]]) /\
  (cellText = [] -> extract cellText = []).
Proof.
  intros Hc. unfold extract, handles_of_cells. cbn [cells_loop].
  rewrite Hc. cbn [negb].
  repeat split.
  - intros Hne. destruct cellText; [congruence|reflexivity].
  - intros Hne Hb. destruct cellText; [congruence|].
    cbn [truthy negb app]. rewrite strip_blank by assumption. reflexivity.
  - intros ->. reflexivity.
Qed.

(** C7: a cell text with ["://"] gives, for each trimmed piece between
    commas, one handle when the piece starts with a profile prefix (the
    prefix and a leading ["#!/"] removed) and none otherwise; the cell
    ["http://twitter.com/#!/baz"] gives the handle ["baz"]. *)
Theorem extract_profile_urls :
  (forall cellText,
     contains (py "://") cellText = true ->
     extract cellText = spec_extract_urls cellText) /\
  extract (py "http://twitter.com/#!/baz") = [py "baz"].
Proof.
  split; [|reflexivity].
  intros cellText Hc. unfold extract, handles_of_cells. cbn [cells_loop].
  rewrite Hc. destruct cellText as [|c s]; [discriminate|].
  cbn [truthy negb]. rewrite urls_loop_acc. cbn [app].
  unfold spec_extract_urls. apply flat_map_ext. intros url.
  apply prefix_loop_spec.
Qed.

(** ** Discovery *)

Section Discovery.
Context (C : Collaborators).

Lemma discover_transaction file files discovered :
  exists discovered',
    with_transaction (discover_block file) files discovered =
    (Ok tt, discovered_files file files, discovered').
Proof.
  unfold with_transaction, discover_block, discovered_files.
  destruct (OOBTree.mem (df_id file) files); simpl; eauto.
Qed.

Lemma scan_loop_cons file rest files discovered :
  exists discovered',
    scan_loop C (file :: rest) files discovered =
    match last_char (df_title file) with
    | None => (Raise IndexError, files, discovered)
    | Some last =>
        if isdigit C last
        then scan_loop C rest (discovered_files file files) discovered'
        else scan_loop C rest files discovered
    end.
Proof.
  destruct (discover_transaction file files discovered) as [d' Hd].
  cbn [scan_loop]. rewrite Hd.
  destruct (last_char (df_title file)) as [last|]; [|eauto].
  destruct (isdigit C last); cbn [negb]; eauto.
Qed.

Lemma discovered_files_get file files k v :
  OOBTree.get k files = Some v ->
  OOBTree.get k (discovered_files file files) = Some v.
Proof.
  unfold discovered_files. intros H.
  destruct (OOBTree.mem (df_id file) files) eqn:M; [assumption|].
  rewrite get_set_other; [assumption|].
  intros ->. unfold OOBTree.mem in M. rewrite H in M. discriminate.
Qed.

Lemma discovered_files_known file files :
  OOBTree.mem (df_id file) files = true ->
  discovered_files file files = files.
Proof. unfold discovered_files. intros ->. reflexivity. Qed.

Lemma discovered_files_mem file files :
  OOBTree.mem (df_id file) (discovered_files file files) = true.
Proof.
  unfold discovered_files.
  destruct (OOBTree.mem (df_id file) files) eqn:M; [assumption|].
  apply mem_set_same.
Qed.

(** Discovery keeps every record it finds in the registry as it is. *)
Lemma scan_loop_get listing : forall files discovered k v,
  OOBTree.get k files = Some v ->
  OOBTree.get k (store (scan_loop C listing files discovered)) = Some v.
Proof.
  induction listing as [|file rest IH]; intros files discovered k v H.
  - exact H.
  - destruct (scan_loop_cons file rest files discovered) as [d' ->].
    destruct (last_char (df_title file)) as [last|]; [|exact H].
    destruct (isdigit C last); [|auto].
    apply IH. apply discovered_files_get. exact H.
Qed.

Lemma scan_loop_mem listing files discovered k :
  OOBTree.mem k files = true ->
  OOBTree.mem k (store (scan_loop C listing files discovered)) = true.
Proof.
  unfold OOBTree.mem. destruct (OOBTree.get k files) as [v|] eqn:E;
    [|discriminate].
  intros _. rewrite (scan_loop_get listing files discovered k v E). reflexivity.
Qed.

(** Discovery keeps the registry a map: no identifier gets two records. *)
Lemma scan_loop_NoDup listing : forall files discovered,
  NoDup (OOBTree.keys files) ->
  NoDup (OOBTree.keys (store (scan_loop C listing files discovered))).
Proof.
  induction listing as [|file rest IH]; intros files discovered ND.
  - exact ND.
  - destruct (scan_loop_cons file rest files discovered) as [d' ->].
    destruct (last_char (df_title file)) as [last|]; [|exact ND].
    destruct (isdigit C last); [|auto].
    apply IH. unfold discovered_files.
    destruct (OOBTree.mem (df_id file) files) eqn:M; [exact ND|].
    apply NoDup_keys_set; assumption.
Qed.

Lemma scan_loop_in_key_order listing : forall files discovered,
  in_key_order files ->
  in_key_order (store (scan_loop C listing files discovered)).
Proof.
  induction listing as [|file rest IH]; intros files discovered Hs.
  - exact Hs.
  - destruct (scan_loop_cons file rest files discovered) as [d' ->].
    destruct (last_char (df_title file)) as [last|]; [|exact Hs].
    destruct (isdigit C last); [|auto].
    apply IH. unfold discovered_files.
    destruct (OOBTree.mem (df_id file) files); [exact Hs|].
    apply set_in_key_order; assumption.
Qed.

(** A second pass over the same listing finds nothing to add, and ends as
    the first did. *)
Lemma scan_loop_again listing : forall files discovered discovered2,
  exists discovered3,
    scan_loop C listing (store (scan_loop C listing files discovered))
      discovered2 =
    (outcome (scan_loop C listing files discovered),
     store (scan_loop C listing files discovered), discovered3).
Proof.
  induction listing as [|file rest IH]; intros files discovered discovered2.
  - simpl. eauto.
  - destruct (scan_loop_cons file rest files discovered) as [d' E]. rewrite E.
    destruct (scan_loop_cons file rest
                (store (scan_loop C (file :: rest) files discovered))
                discovered2) as [d2' E2].
    rewrite E in E2. rewrite E2. clear E E2.
    destruct (last_char (df_title file)) as [last|]; [|simpl; eauto].
    destruct (isdigit C last); [|apply IH].
    rewrite discovered_files_known; [apply IH|].
    apply scan_loop_mem. apply discovered_files_mem.
Qed.

Lemma scan_loop_app pre : forall post files discovered,
  Forall (fun f => df_title f <> []) pre ->
  outcome (scan_loop C pre files discovered) = Ok tt /\
  scan_loop C (pre ++ post) files discovered =
  scan_loop C post (store (scan_loop C pre files discovered))
    (snd (scan_loop C pre files discovered)).
Proof.
  induction pre as [|file pre IH]; intros post files discovered Hne.
  - split; reflexivity.
  - inversion Hne as [|? ? Hf Hpre]; subst.
    assert (exists last, last_char (df_title file) = Some last) as [last Hl].
    { clear -Hf. induction (df_title file) as [|c s IHs]; [congruence|].
      destruct s as [|c' s]; [eexists; reflexivity|].
      apply IHs. discriminate. }
    cbn [app scan_loop]. rewrite Hl.
    destruct (negb (isdigit C last)); [apply IH; assumption|].
    destruct (with_transaction (discover_block file) files discovered)
      as [[r f'] d']. apply IH; assumption.
Qed.

(** C8: a second discovery with the same listing leaves the file registry
    as the first one left it (and ends the same way); discovery keeps every
    record that was in the registry, unchanged, whatever the listing, gives
    no identifier a second record, and does not touch the handles. *)
Theorem discovery_idempotent (db : DB) (w w' : W C) :
  fst (watch_files C None (Some DRIVE_FOLDER_ID) w') =
  fst (watch_files C None (Some DRIVE_FOLDER_ID) w) ->
  store (scan_for_new_spreadsheets C
           (store (scan_for_new_spreadsheets C db w)) w') =
  store (scan_for_new_spreadsheets C db w) /\
  outcome (scan_for_new_spreadsheets C
             (store (scan_for_new_spreadsheets C db w)) w') =
  outcome (scan_for_new_spreadsheets C db w) /\
  (forall file_id file_data,
     OOBTree.get file_id (files db) = Some file_data ->
     OOBTree.get file_id (files (store (scan_for_new_spreadsheets C db w))) =
     Some file_data) /\
  (NoDup (OOBTree.keys (files db)) ->
   NoDup (OOBTree.keys (files (store (scan_for_new_spreadsheets C db w))))) /\
  twitter_handles (store (scan_for_new_spreadsheets C db w)) =
  twitter_handles db.
Proof.
  intros Hsame. unfold scan_for_new_spreadsheets.
  destruct (watch_files C None (Some DRIVE_FOLDER_ID) w) as [[listing|e] w1];
    destruct (watch_files C None (Some DRIVE_FOLDER_ID) w')
      as [[listing'|e'] w1'];
    cbn [fst] in Hsame; try discriminate.
  - injection Hsame as ->.
    destruct (scan_loop C listing (files db) false) as [[r files1] d1] eqn:E1.
    cbn [store outcome fst snd files twitter_handles].
    destruct (scan_loop_again listing (files db) false false) as [d3 E2].
    rewrite E1 in E2. cbn [store outcome fst snd] in E2. rewrite E2.
    cbn [store outcome fst snd].
    repeat split.
    + intros k v H.
      pose proof (scan_loop_get listing (files db) false k v H) as G.
      rewrite E1 in G. exact G.
    + intros ND.
      pose proof (scan_loop_NoDup listing (files db) false ND) as G.
      rewrite E1 in G. exact G.
  - injection Hsame as ->. cbn [store outcome fst snd]. destruct db; auto.
Qed.

(** C10: discovery raises [IndexError] at the first file of the listing
    whose title is empty, with the registry as the files before it left it;
    on files whose titles are not empty the loop completes. *)
Theorem discovery_empty_title
    (pre post : list DriveFile) (file : DriveFile)
    (known : OOBTree.t FileData) (discovered : bool) :
  Forall (fun f => df_title f <> []) pre ->
  df_title file = [] ->
  outcome (scan_loop C pre known discovered) = Ok tt /\
  scan_loop C (pre ++ file :: post) known discovered =
  (Raise IndexError, store (scan_loop C pre known discovered),
   snd (scan_loop C pre known discovered)) /\
  (forall db w w1,
     files db = known ->
     watch_files C None (Some DRIVE_FOLDER_ID) w =
     (Ok (pre ++ file :: post), w1) ->
     scan_for_new_spreadsheets C db w =
     (Raise IndexError,
      {| files := store (scan_loop C pre known false);
         twitter_handles := twitter_handles db |}, w1)).
Proof.
  intros Hpre Hfile.
  assert (A : forall d, scan_loop C (pre ++ file :: post) known d =
    (Raise IndexError, store (scan_loop C pre known d),
     snd (scan_loop C pre known d))).
  { intros d. destruct (scan_loop_app pre (file :: post) known d Hpre) as [_ ->].
    cbn [scan_loop]. rewrite Hfile. reflexivity. }
  split; [apply (scan_loop_app pre post known discovered Hpre)|].
  split; [apply A|].
  intros db w w1 <- Hw. unfold scan_for_new_spreadsheets. rewrite Hw.
  rewrite A. reflexivity.
Qed.

End Discovery.

(** ** Extraction pass *)

Section Extraction.
Context (C : Collaborators).

(** A transaction that ends in an exception leaves the persistent state as
    it found it. *)
Lemma with_transaction_raise {S V A : Type}
    (body : S -> V -> result A * S * V) (s : S) (v : V) (e : exn) :
  outcome (with_transaction body s v) = Raise e ->
  store (with_transaction body s v) = s.
Proof.
  unfold with_transaction, outcome, store.
  destruct (body s v) as [[[a|e'] s'] v']; simpl; [discriminate|reflexivity].
Qed.

(** Whatever the block, an iteration that raises has written nothing. *)
Lemma process_file_raise (block : import_block_type C) file_id file_data th w e :
  outcome (process_file_with C block file_id file_data th w) = Raise e ->
  store (process_file_with C block file_id file_data th w) = (file_data, th).
Proof.
  unfold process_file_with.
  destruct (parse_date C (fd_createdDate file_data)) as [date|e0];
    [|reflexivity].
  destruct (negb (fd_processed file_data)); [|reflexivity].
  destruct (extract_twitter_handles C file_id 76%N w) as [[handles|e1] w1];
    [|reflexivity].
  apply with_transaction_raise.
Qed.

(** The iteration for a file already processed: no fetch, no write. *)
Lemma process_file_processed (block : import_block_type C) file_id file_data th w :
  fd_processed file_data = true ->
  process_file_with C block file_id file_data th w =
  (match parse_date C (fd_createdDate file_data) with
   | Ok _ => Ok tt
   | Raise e => Raise e
   end, (file_data, th), w).
Proof.
  intros Hp. unfold process_file_with. rewrite Hp.
  destruct (parse_date C (fd_createdDate file_data)); reflexivity.
Qed.

(** The iteration that completes for an unprocessed file: the handles of
    the column are imported and the flag is set. *)
Lemma process_file_ok file_id file_data th w :
  fd_processed file_data = false ->
  outcome (process_file C file_id file_data th w) = Ok tt ->
  exists date handles w1,
    parse_date C (fd_createdDate file_data) = Ok date /\
    extract_twitter_handles C file_id 76%N w = (Ok handles, w1) /\
    process_file C file_id file_data th w =
    (Ok tt,
     (set_processed file_data, fst (import_loop C date file_id handles th w1)),
     snd (import_loop C date file_id handles th w1)).
Proof.
  intros Hp. unfold process_file, process_file_with. rewrite Hp. cbn [negb].
  destruct (parse_date C (fd_createdDate file_data)) as [date|e0];
    [|discriminate].
  destruct (extract_twitter_handles C file_id 76%N w) as [[handles|e1] w1];
    [|discriminate].
  intros _. exists date, handles, w1. repeat split.
  unfold with_transaction, import_block. cbn [fst snd].
  destruct (import_loop C date file_id handles th w1); reflexivity.
Qed.

(** The import loop registers every handle it is given and keeps the
    records that were there. *)
Lemma import_loop_mem date file_id handles : forall th w handle,
  In handle handles \/ OOBTree.mem handle th = true ->
  OOBTree.mem handle (fst (import_loop C date file_id handles th w)) = true.
Proof.
  induction handles as [|h rest IH]; intros th w handle H.
  - destruct H as [[]|H]; exact H.
  - cbn [import_loop].
    destruct (OOBTree.mem h th) eqn:M; cbn [negb].
    + apply IH. destruct H as [[->|H]|H]; auto.
    + destruct (utcnow C w) as [now w1]. apply IH.
      destruct H as [[->|H]|H]; auto.
      * right; apply mem_set_same.
      * right; apply mem_set_mono; exact H.
Qed.

Lemma import_loop_get date file_id handles : forall th w handle d,
  OOBTree.get handle th = Some d ->
  OOBTree.get handle (fst (import_loop C date file_id handles th w)) = Some d.
Proof.
  induction handles as [|h rest IH]; intros th w handle d H.
  - exact H.
  - cbn [import_loop].
    destruct (OOBTree.mem h th) eqn:M; cbn [negb]; [auto|].
    destruct (utcnow C w) as [now w1]. apply IH.
    rewrite get_set_other; [exact H|].
    intros ->. unfold OOBTree.mem in M. rewrite H in M. discriminate.
Qed.

Lemma import_loop_other date file_id handles : forall th w handle,
  ~ In handle handles ->
  OOBTree.get handle (fst (import_loop C date file_id handles th w)) =
  OOBTree.get handle th.
Proof.
  induction handles as [|h rest IH]; intros th w handle H.
  - reflexivity.
  - cbn [import_loop]. simpl in H.
    destruct (OOBTree.mem h th) eqn:M; cbn [negb].
    + apply IH; tauto.
    + destruct (utcnow C w) as [now w1]. rewrite IH by tauto.
      apply get_set_other. intros ->; tauto.
Qed.

Lemma extract_loop_cons file_id file_data rest th w :
  extract_loop C ((file_id, file_data) :: rest) th w =
  match process_file C file_id file_data th w with
  | (Ok _, (file_data', th'), w') =>
      (outcome (extract_loop C rest th' w'),
       ((file_id, file_data') :: fst (store (extract_loop C rest th' w')),
        snd (store (extract_loop C rest th' w'))),
       snd (extract_loop C rest th' w'))
  | (Raise e, (file_data', th'), w') =>
      (Raise e, ((file_id, file_data') :: rest, th'), w')
  end.
Proof.
  cbn [extract_loop].
  destruct (process_file C file_id file_data th w) as [[[[]|e] [fd' th']] w'];
    [|reflexivity].
  destruct (extract_loop C rest th' w') as [[r2 [rest' th'']] w''].
  reflexivity.
Qed.

(** A pass that raises stopped at one file: that file and the files after
    it are as they were, only files before it were written. *)
Lemma extract_loop_raise items : forall th w e,
  outcome (extract_loop C items th w) = Raise e ->
  exists pre pre' file_id file_data post,
    items = pre ++ (file_id, file_data) :: post /\
    fst (store (extract_loop C items th w)) =
    pre' ++ (file_id, file_data) :: post /\
    List.map fst pre' = List.map fst pre /\
    outcome (extract_loop C pre th w) = Ok tt /\
    snd (store (extract_loop C items th w)) =
    snd (store (extract_loop C pre th w)) /\
    outcome (process_file C file_id file_data
               (snd (store (extract_loop C pre th w)))
               (snd (extract_loop C pre th w))) = Raise e.
Proof.
  induction items as [|[file_id file_data] rest IH]; intros th w e H.
  - discriminate.
  - rewrite extract_loop_cons in H |- *.
    pose proof (process_file_raise (import_block C) file_id file_data th w)
      as R.
    fold (process_file C) in R.
    destruct (process_file C file_id file_data th w)
      as [[[[]|e0] [fd' th']] w'] eqn:E0.
    + cbn [outcome store fst snd] in H |- *.
      destruct (IH th' w' e H)
        as (pre & pre' & fid & fd & post & Hi & Hs & Hk & Ho & Hh & Hr).
      exists ((file_id, file_data) :: pre), ((file_id, fd') :: pre'),
        fid, fd, post.
      rewrite extract_loop_cons, E0. cbn [outcome store fst snd app List.map].
      repeat split; congruence.
    + specialize (R e0 eq_refl). cbn [store fst snd] in R.
      injection R as -> ->. cbn [outcome fst] in H. injection H as ->.
      exists [], [], file_id, file_data, rest.
      cbn [extract_loop outcome store fst snd app List.map].
      rewrite E0. repeat split.
Qed.

Lemma process_file_settles file_id file_data th w :
  outcome (process_file C file_id file_data th w) = Ok tt ->
  fd_processed (fst (store (process_file C file_id file_data th w))) = true /\
  exists date,
    parse_date C
      (fd_createdDate (fst (store (process_file C file_id file_data th w)))) =
    Ok date.
Proof.
  destruct (fd_processed file_data) eqn:Hp.
  - unfold process_file. rewrite process_file_processed by assumption.
    cbn [outcome store fst snd].
    destruct (parse_date C (fd_createdDate file_data)) as [date|e];
      [eauto|discriminate].
  - intros H. destruct (process_file_ok file_id file_data th w Hp H)
      as (date & handles & w1 & Hd & _ & ->).
    cbn [store fst snd set_processed fd_processed fd_createdDate]. eauto.
Qed.

Lemma extract_loop_settles items : forall th w,
  outcome (extract_loop C items th w) = Ok tt ->
  Forall (settled C) (fst (store (extract_loop C items th w))).
Proof.
  induction items as [|[file_id file_data] rest IH]; intros th w H.
  - constructor.
  - rewrite extract_loop_cons in H |- *.
    pose proof (process_file_settles file_id file_data th w) as P.
    destruct (process_file C file_id file_data th w)
      as [[[[]|e0] [fd' th']] w']; [|discriminate].
    cbn [outcome store fst snd] in *. constructor; [apply P|apply IH]; auto.
Qed.

Lemma extract_loop_settled items : forall th w,
  Forall (settled C) items -> extract_loop C items th w = (Ok tt, (items, th), w).
Proof.
  induction items as [|[file_id file_data] rest IH]; intros th w H.
  - reflexivity.
  - inversion H as [|? ? [Hp [date Hd]] Hrest]; subst. cbn [snd] in Hp, Hd.
    rewrite extract_loop_cons. unfold process_file.
    rewrite process_file_processed by assumption. rewrite Hd.
    rewrite IH by assumption. reflexivity.
Qed.

Lemma extract_loop_processed items : forall th w,
  Forall (fun kv => fd_processed (snd kv) = true) items ->
  store (extract_loop C items th w) = (items, th) /\
  snd (extract_loop C items th w) = w.
Proof.
  induction items as [|[file_id file_data] rest IH]; intros th w H.
  - split; reflexivity.
  - inversion H as [|? ? Hp Hrest]; subst. cbn [snd] in Hp.
    rewrite extract_loop_cons. unfold process_file.
    rewrite process_file_processed by assumption.
    destruct (parse_date C (fd_createdDate file_data)); [|split; reflexivity].
    destruct (IH th w Hrest) as [Hs Hw]. cbn [store fst snd] in *.
    rewrite Hw. destruct (extract_loop C rest th w) as [[r [i t]] w'].
    cbn [fst snd] in *. injection Hs as -> ->. split; reflexivity.
Qed.

Lemma pass_unfold db w :
  extract_twitter_handles_from_spreadsheets C db w =
  (outcome (extract_loop C (files db) (twitter_handles db) w),
   {| files := fst (store (extract_loop C (files db) (twitter_handles db) w));
      twitter_handles :=
        snd (store (extract_loop C (files db) (twitter_handles db) w)) |},
   snd (extract_loop C (files db) (twitter_handles db) w)).
Proof.
  unfold extract_twitter_handles_from_spreadsheets, OOBTree.items.
  destruct (extract_loop C (files db) (twitter_handles db) w)
    as [[r [f t]] w']. reflexivity.
Qed.

(** C9: the iteration for a file marked processed fetches nothing and
    writes nothing; a pass over a registry of processed files leaves the
    store and the world as they are; and a pass run again after a pass that
    completed changes nothing. *)
Theorem extraction_skips_processed :
  (forall file_id file_data th w,
     fd_processed file_data = true ->
     store (process_file C file_id file_data th w) = (file_data, th) /\
     snd (process_file C file_id file_data th w) = w) /\
  (forall db w,
     Forall (fun kv => fd_processed (snd kv) = true) (files db) ->
     store (extract_twitter_handles_from_spreadsheets C db w) = db /\
     snd (extract_twitter_handles_from_spreadsheets C db w) = w) /\
  (forall db w w2,
     outcome (extract_twitter_handles_from_spreadsheets C db w) = Ok tt ->
     extract_twitter_handles_from_spreadsheets C
       (store (extract_twitter_handles_from_spreadsheets C db w)) w2 =
     (Ok tt, store (extract_twitter_handles_from_spreadsheets C db w), w2)).
Proof.
  split; [|split].
  - intros file_id file_data th w Hp. unfold process_file.
    rewrite process_file_processed by assumption. split; reflexivity.
  - intros db w H. rewrite pass_unfold.
    destruct (extract_loop_processed (files db) (twitter_handles db) w H)
      as [Hs Hw].
    cbn [store fst snd]. rewrite Hs, Hw. destruct db; split; reflexivity.
  - intros db w w2. rewrite pass_unfold. cbn [outcome store fst snd].
    intros H. rewrite pass_unfold. cbn [files twitter_handles].
    rewrite extract_loop_settled by (apply extract_loop_settles; exact H).
    reflexivity.
Qed.

(** C5: for a file not yet processed, the handle insertions and the flag
    are written together or not at all. An iteration that raises (the date
    does not parse, the sheet cannot be fetched) leaves the file's mapping
    and the handle registry as they were; so does a run that dies inside
    the transaction, after any number of insertions; an iteration that
    completes has set the flag and registered every handle of the column.
    A pass that raises leaves the file it stopped at, and the handle
    registry since the file before it, unchanged. *)
Theorem extraction_all_or_nothing
    (file_id : str) (file_data : FileData)
    (th : OOBTree.t HandleData) (w : W C) :
  fd_processed file_data = false ->
  (forall e,
     outcome (process_file C file_id file_data th w) = Raise e ->
     store (process_file C file_id file_data th w) = (file_data, th)) /\
  (forall k,
     (exists e,
        outcome (process_file_killed C k file_id file_data th w) = Raise e) /\
     store (process_file_killed C k file_id file_data th w) =
     (file_data, th)) /\
  (outcome (process_file C file_id file_data th w) = Ok tt ->
   fd_processed (fst (store (process_file C file_id file_data th w))) = true /\
   exists handles w1,
     extract_twitter_handles C file_id 76%N w = (Ok handles, w1) /\
     forall handle,
       In handle handles ->
       OOBTree.mem handle
         (snd (store (process_file C file_id file_data th w))) = true) /\
  (forall items th0 w0 e,
     outcome (extract_loop C items th0 w0) = Raise e ->
     exists pre pre' failing_id failing_data post,
       items = pre ++ (failing_id, failing_data) :: post /\
       fst (store (extract_loop C items th0 w0)) =
       pre' ++ (failing_id, failing_data) :: post /\
       List.map fst pre' = List.map fst pre /\
       outcome (extract_loop C pre th0 w0) = Ok tt /\
       snd (store (extract_loop C items th0 w0)) =
       snd (store (extract_loop C pre th0 w0)) /\
       outcome (process_file C failing_id failing_data
                  (snd (store (extract_loop C pre th0 w0)))
                  (snd (extract_loop C pre th0 w0))) = Raise e).
Proof.
  intros Hp. split; [|split; [|split]].
  - intros e. apply process_file_raise.
  - intros k.
    assert (exists e,
      outcome (process_file_killed C k file_id file_data th w) = Raise e)
      as [e He].
    { unfold process_file_killed, process_file_with. rewrite Hp. cbn [negb].
      destruct (parse_date C (fd_createdDate file_data)) as [date|e0];
        [|eexists; reflexivity].
      destruct (extract_twitter_handles C file_id 76%N w)
        as [[handles|e1] w1]; [|eexists; reflexivity].
      unfold with_transaction, import_block_killed. cbn [fst snd].
      destruct (import_loop C date file_id (firstn k handles) th w1).
      eexists; reflexivity. }
    split; [eauto|]. exact (process_file_raise _ _ _ _ _ _ He).
  - intros H. destruct (process_file_ok file_id file_data th w Hp H)
      as (date & handles & w1 & Hd & Hx & ->).
    cbn [store fst snd]. split; [reflexivity|].
    exists handles, w1. split; [exact Hx|].
    intros handle Hin. apply import_loop_mem. auto.
  - apply extract_loop_raise.
Qed.

(** C2, as the code has it: when column [L] of an unprocessed file holds
    the one cell ["https://twitter.com/foo, bar"], the extraction yields
    exactly the handle ["foo"]; the iteration completes and sets the flag,
    ["foo"] (when not registered before) gets a new record with the file's
    identifier as [sheet], the file's creation date as [added] and no stage
    sent, and no other handle, ["bar"] among them, gets or loses a
    record. *)
Theorem extraction_of_url_and_name
    (file_id : str) (file_data : FileData)
    (th : OOBTree.t HandleData) (w w1 : W C) (date : timestamp) :
  fd_processed file_data = false ->
  parse_date C (fd_createdDate file_data) = Ok date ->
  col_values C file_id 12%Z w =
  (Ok [py "https://twitter.com/foo, bar"], w1) ->
  extract_twitter_handles C file_id 76%N w = (Ok [py "foo"], w1) /\
  outcome (process_file C file_id file_data th w) = Ok tt /\
  fst (store (process_file C file_id file_data th w)) =
  set_processed file_data /\
  (OOBTree.mem (py "foo") th = false ->
   OOBTree.get (py "foo")
     (snd (store (process_file C file_id file_data th w))) =
   Some {| added := date; imported := fst (utcnow C w1); sheet := file_id;
           first_tweet_at := None; second_tweet_at := None |}) /\
  (forall handle,
     handle <> py "foo" ->
     OOBTree.get handle (snd (store (process_file C file_id file_data th w))) =
     OOBTree.get handle th) /\
  OOBTree.get (py "bar") (snd (store (process_file C file_id file_data th w))) =
  OOBTree.get (py "bar") th.
Proof.
  intros Hp Hd Hc.
  assert (Hx : extract_twitter_handles C file_id 76%N w = (Ok [py "foo"], w1)).
  { unfold extract_twitter_handles.
    change (Z.of_N 76 - Z.of_N 65 + 1)%Z with 12%Z. rewrite Hc. reflexivity. }
  assert (E : process_file C file_id file_data th w =
    (Ok tt,
     (set_processed file_data,
      fst (import_loop C date file_id [py "foo"] th w1)),
     snd (import_loop C date file_id [py "foo"] th w1))).
  { unfold process_file, process_file_with. rewrite Hd, Hp, Hx. cbn [negb].
    unfold with_transaction, import_block. cbn [fst snd].
    destruct (import_loop C date file_id [py "foo"] th w1); reflexivity. }
  rewrite E. cbn [outcome store fst snd].
  assert (O : forall handle, handle <> py "foo" ->
    OOBTree.get handle (fst (import_loop C date file_id [py "foo"] th w1)) =
    OOBTree.get handle th).
  { intros handle Hne. apply import_loop_other. simpl. intuition congruence. }
  repeat split; auto.
  - intros Hm. cbn [import_loop]. rewrite Hm. cbn [negb].
    destruct (utcnow C w1) as [now w2]. cbn [fst]. apply get_set_same.
  - apply O. discriminate.
Qed.

End Extraction.

(** ** Stage runner *)

Section Runner.
Context (C : Collaborators).

(** [send_tweet] returns when Twitter accepted the tweet or called it a
    duplicate, and raises otherwise. *)
Lemma send_tweet_accepted msg w :
  (accepted (fst (update_status C msg w)) = true /\
   fst (send_tweet C msg w) = Ok tt) \/
  (accepted (fst (update_status C msg w)) = false /\
   exists e, fst (send_tweet C msg w) = Raise e).
Proof.
  unfold send_tweet.
  destruct (update_status C msg w) as [[|code text reason|reason] w1];
    cbn [fst accepted].
  - left. destruct (randint C 0 90 w1). split; reflexivity.
  - destruct (is_duplicate code).
    + left. destruct (randint C 0 10 w1). split; reflexivity.
    + right. split; [reflexivity|eexists; reflexivity].
  - right. split; [reflexivity|eexists; reflexivity].
Qed.

Lemma tweet_stage_spec st h n d w log :
  exists ev w',
    ev_handle ev = h /\ ev_stage ev = st /\
    ((accepted (ev_response ev) = true /\
      exists now,
        tweet_stage C st h n d (w, log) =
        (Ok (S n), set_stage_field st now d, (w', log ++ [ev]))) \/
     (accepted (ev_response ev) = false /\
      exists e,
        tweet_stage C st h n d (w, log) =
        (Raise e, d, (w', log ++ [ev])))).
Proof.
  unfold tweet_stage.
  destruct (random_choice C _ w) as [text w1].
  destruct (utcnow C w1) as [t0 w2].
  set (tweet := py "@" ++ h ++ py " " ++ text).
  set (ev := {| ev_handle := h; ev_stage := st; ev_msg := tweet;
                ev_response := fst (update_status C tweet w2) |}).
  destruct (send_tweet_accepted tweet w2) as [[Ha Hs]|[Ha [e Hs]]];
    destruct (send_tweet C tweet w2) as [r w3]; cbn [fst] in Hs; subst r.
  - destruct (utcnow C w3) as [now w4].
    exists ev, w4. split; [reflexivity|]. split; [reflexivity|].
    left. split; [exact Ha|]. exists now. destruct st; reflexivity.
  - exists ev, w3. split; [reflexivity|]. split; [reflexivity|].
    right. split; [exact Ha|]. exists e. reflexivity.
Qed.

(** The transaction of one handle: nothing for a handle with both stages
    sent; else one tweet of the stage that is due, recorded when accepted
    and rolled back when refused. *)
Lemma tweet_transaction h n d w log :
  (eligible d = false /\
   with_transaction (tweet_block C h n) d (w, log) = (Ok n, d, (w, log))) \/
  (eligible d = true /\
   exists st ev w',
     stage_field st d = None /\
     (st = Stage1 \/ first_tweet_at d <> None) /\
     ev_handle ev = h /\ ev_stage ev = st /\
     ((accepted (ev_response ev) = true /\
       exists now,
         with_transaction (tweet_block C h n) d (w, log) =
         (Ok (S n), set_stage_field st now d, (w', log ++ [ev]))) \/
      (accepted (ev_response ev) = false /\
       exists e,
         with_transaction (tweet_block C h n) d (w, log) =
         (Raise e, d, (w', log ++ [ev]))))).
Proof.
  unfold with_transaction, tweet_block, eligible.
  destruct (first_tweet_at d) as [t1|] eqn:F1;
    [destruct (second_tweet_at d) as [t2|] eqn:F2|].
  - left. split; reflexivity.
  - right. split; [reflexivity|].
    destruct (tweet_stage_spec Stage2 h n d w log)
      as (ev & w' & Hh & Hst & [[Ha [now E]]|[Ha [e E]]]);
      exists Stage2, ev, w'; rewrite E;
      (split; [exact F2|]); (split; [right; congruence|]);
      (split; [exact Hh|]); (split; [exact Hst|]); eauto.
  - right. split; [destruct (second_tweet_at d); reflexivity|].
    destruct (tweet_stage_spec Stage1 h n d w log)
      as (ev & w' & Hh & Hst & [[Ha [now E]]|[Ha [e E]]]);
      exists Stage1, ev, w'; rewrite E;
      (split; [exact F1|]); (split; [left; reflexivity|]);
      (split; [exact Hh|]); (split; [exact Hst|]); eauto.
Qed.

Lemma tweet_loop_cons h d rest n v :
  tweet_loop C ((h, d) :: rest) n v =
  match with_transaction (tweet_block C h n) d v with
  | (Raise e, d', v') => (Raise e, (h, d') :: rest, v')
  | (Ok n', d', v') =>
      if MAX_TWEET_COUNT <=? n' then (Ok tt, (h, d') :: rest, v')
      else (outcome (tweet_loop C rest n' v'),
            (h, d') :: store (tweet_loop C rest n' v'),
            snd (tweet_loop C rest n' v'))
  end.
Proof.
  cbn [tweet_loop].
  destruct (with_transaction (tweet_block C h n) d v) as [[[n'|e] d'] v'];
    [|reflexivity].
  destruct (MAX_TWEET_COUNT <=? n'); [reflexivity|].
  destruct (tweet_loop C rest n' v') as [[r2 rest'] v'']. reflexivity.
Qed.

(** A run of the loop follows [Trace]. *)
Lemma tweet_loop_trace items : forall n w log,
  exists evs,
    snd (snd (tweet_loop C items n (w, log))) = log ++ evs /\
    Trace items (store (tweet_loop C items n (w, log))) evs.
Proof.
  induction items as [|[h d] rest IH]; intros n w log.
  - exists []. split; [simpl; rewrite app_nil_r; reflexivity|constructor].
  - rewrite tweet_loop_cons.
    destruct (tweet_transaction h n d w log)
      as [[He ->]|[He (st & ev & w' & Hf & H1 & Hh & Hst &
                       [[Ha [now ->]]|[Ha [e ->]]])]].
    + destruct (MAX_TWEET_COUNT <=? n).
      * exists []. split; [simpl; rewrite app_nil_r; reflexivity|constructor].
      * destruct (IH n w log) as (evs & Hl & Ht). exists evs.
        split; [exact Hl|]. apply trace_skip; assumption.
    + destruct (MAX_TWEET_COUNT <=? S n).
      * exists [ev]. split; [reflexivity|].
        apply trace_sent; auto. constructor.
      * destruct (IH (S n) w' (log ++ [ev])) as (evs & Hl & Ht).
        exists (ev :: evs). cbn [snd store fst].
        split; [rewrite Hl, <- app_assoc; reflexivity|].
        apply trace_sent; auto.
    + exists [ev]. split; [reflexivity|].
      apply trace_refused with (st := st); auto.
Qed.

Lemma progress_refl d : progress d d.
Proof. unfold progress; tauto. Qed.


Lemma progress_set st now d :
  stage_field st d = None ->
  (st = Stage1 \/ first_tweet_at d <> None) ->
  progress d (set_stage_field st now d).
Proof.
  intros Hf H1. unfold progress, stage_inv, eligible.
  destruct st; cbn [stage_field set_stage_field] in *;
    (repeat split; try reflexivity).
  - intros [] t; cbn; congruence.
  - cbn. congruence.
  - rewrite Hf. discriminate.
  - intros [] t; cbn; congruence.
  - cbn. destruct H1; [discriminate|auto].
  - rewrite Hf. destruct (first_tweet_at d); discriminate.
Qed.

Lemma Trace_Forall2 [items items' evs] :
  Trace items items' evs ->
  Forall2 (fun a b => fst a = fst b /\ progress (snd a) (snd b)) items items'.
Proof.
  assert (R : forall l : list (str * HandleData),
    Forall2 (fun a b => fst a = fst b /\ progress (snd a) (snd b)) l l).
  { induction l; constructor; [split; [reflexivity|apply progress_refl]|auto]. }
  induction 1.
  - apply R.
  - constructor; [split; [reflexivity|apply progress_refl]|assumption].
  - constructor; [|assumption]. split; [reflexivity|].
    cbn [snd]. apply progress_set; assumption.
  - apply R.
Qed.

Lemma Forall2_keys [items items' : list (str * HandleData)] [R] :
  Forall2 (fun a b => fst a = fst b /\ R (snd a) (snd b)) items items' ->
  OOBTree.keys items' = OOBTree.keys items.
Proof.
  induction 1 as [|a b l l' [Hk _] _ IH]; [reflexivity|].
  unfold OOBTree.keys in *. cbn [List.map]. congruence.
Qed.


Lemma Forall2_In_right [items items' : list (str * HandleData)] [R h d'] :
  Forall2 (fun a b => fst a = fst b /\ R (snd a) (snd b)) items items' ->
  In (h, d') items' -> exists d, In (h, d) items /\ R d d'.
Proof.
  induction 1 as [|[k d] b l l' [Hk Hr] _ IH]; intros Hin; [destruct Hin|].
  destruct Hin as [->|Hin].
  - cbn [fst snd] in *. subst k. exists d. split; [left; reflexivity|assumption].
  - destruct (IH Hin) as (d0 & H0 & H1). exists d0. split; [right|]; assumption.
Qed.

(** Every tweet of a run is for a handle whose field for that stage was
    empty, and an accepted tweet has its field written. *)
Lemma Trace_events [items items' evs] :
  Trace items items' evs ->
  forall ev, In ev evs ->
    exists d,
      In (ev_handle ev, d) items /\
      stage_field (ev_stage ev) d = None /\
      (accepted (ev_response ev) = true ->
       exists d', In (ev_handle ev, d') items' /\
                  stage_field (ev_stage ev) d' <> None).
Proof.
  induction 1 as [items|h d items items' evs He Ht IH
                 |h d st now ev0 items items' evs Hf H1 Hh Hst Ha Ht IH
                 |h d st ev0 items Hf Hh Hst Ha]; intros ev Hin.
  - destruct Hin.
  - destruct (IH ev Hin) as (d0 & H0 & F0 & A0). exists d0.
    split; [right; exact H0|]. split; [exact F0|].
    intros A. destruct (A0 A) as (d1 & I1 & S1). exists d1. split; [right|]; auto.
  - destruct Hin as [<-|Hin].
    + exists d. rewrite Hh, Hst. split; [left; reflexivity|]. split; [exact Hf|].
      intros _. exists (set_stage_field st now d). split; [left; reflexivity|].
      destruct st; cbn; discriminate.
    + destruct (IH ev Hin) as (d0 & H0 & F0 & A0). exists d0.
      split; [right; exact H0|]. split; [exact F0|].
      intros A. destruct (A0 A) as (d1 & I1 & S1). exists d1.
      split; [right|]; auto.
  - destruct Hin as [<-|[]]. exists d. rewrite Hh, Hst.
    split; [left; reflexivity|]. split; [exact Hf|]. congruence.
Qed.

(** A run sends at most one tweet to a handle. *)
Lemma Trace_handles_NoDup [items items' evs] :
  Trace items items' evs ->
  NoDup (OOBTree.keys items) -> NoDup (List.map ev_handle evs).
Proof.
  induction 1 as [items|h d items items' evs He Ht IH
                 |h d st now ev0 items items' evs Hf H1 Hh Hst Ha Ht IH
                 |h d st ev0 items Hf Hh Hst Ha]; intros ND.
  - constructor.
  - inversion ND; subst. apply IH; assumption.
  - inversion ND as [|? ? Hk ND']; subst. cbn [List.map]. constructor.
    + intros Hin. apply in_map_iff in Hin as (ev & E & Hin).
      destruct (Trace_events Ht ev Hin) as (d0 & H0 & _).
      apply Hk. rewrite <- E. apply (in_map fst) in H0. exact H0.
    + apply IH; assumption.
  - cbn. constructor; [tauto|constructor].
Qed.




End Runner.

(** ** Stores the program reaches *)

Section Progression.
Context (C : Collaborators).

Lemma In_set {V : Type} (k : str) (v : V) (m : OOBTree.t V) x :
  In x (OOBTree.set k v m) -> x = (k, v) \/ In x m.
Proof.
  induction m as [|[k' v'] m IH]; simpl.
  - intros [<-|[]]; auto.
  - destruct (PyStr.compare k k'); simpl; intuition.
Qed.

Lemma In_set_fresh {V : Type} (k : str) (v : V) (m : OOBTree.t V) x :
  OOBTree.mem k m = false -> In x m -> In x (OOBTree.set k v m).
Proof.
  unfold OOBTree.mem. induction m as [|[k' v'] m IH]; simpl; [tauto|].
  destruct (PyStr.eqb k k') eqn:E; [discriminate|].
  unfold PyStr.eqb in E. intros Hm.
  destruct (PyStr.compare k k'); simpl; [discriminate|tauto|].
  intros [H|H]; auto.
Qed.

Lemma Grows_refl th : Grows th th.
Proof. unfold Grows; auto. Qed.

Lemma Grows_trans th th' th'' : Grows th th' -> Grows th' th'' -> Grows th th''.
Proof.
  intros (O1 & A1 & B1 & C1) (O2 & A2 & B2 & C2). repeat split; auto.
  intros h d H. destruct (C2 h d H) as [H'|H']; auto.
Qed.

Lemma import_loop_grows date file_id handles : forall th w,
  Grows th (fst (import_loop C date file_id handles th w)).
Proof.
  induction handles as [|h rest IH]; intros th w.
  - apply Grows_refl.
  - cbn [import_loop]. destruct (OOBTree.mem h th) eqn:M; cbn [negb]; [apply IH|].
    destruct (utcnow C w) as [now w1].
    eapply Grows_trans; [|apply IH]. repeat split.
    + apply set_in_key_order.
    + intros ND. apply NoDup_keys_set; assumption.
    + intros x. apply In_set_fresh. exact M.
    + intros h0 d0 H. apply In_set in H as [H|H]; [|auto].
      injection H as -> ->. right. split; reflexivity.
Qed.

Lemma process_file_grows file_id file_data th w :
  Grows th (snd (store (process_file C file_id file_data th w))).
Proof.
  destruct (outcome (process_file C file_id file_data th w)) as [[]|e] eqn:O.
  - destruct (fd_processed file_data) eqn:Hp.
    + unfold process_file. rewrite process_file_processed by assumption.
      apply Grows_refl.
    + destruct (process_file_ok C file_id file_data th w Hp O)
        as (date & handles & w1 & _ & _ & ->).
      apply import_loop_grows.
  - unfold process_file in *. rewrite (process_file_raise _ _ _ _ _ _ _ O).
    apply Grows_refl.
Qed.

Lemma extract_loop_grows items : forall th w,
  Grows th (snd (store (extract_loop C items th w))).
Proof.
  induction items as [|[file_id file_data] rest IH]; intros th w.
  - apply Grows_refl.
  - rewrite extract_loop_cons.
    pose proof (process_file_grows file_id file_data th w) as G.
    destruct (process_file C file_id file_data th w)
      as [[[[]|e] [fd' th']] w']; cbn [store fst snd] in *; [|exact G].
    eapply Grows_trans; [exact G|apply IH].
Qed.

Lemma scan_handles db w :
  twitter_handles (store (scan_for_new_spreadsheets C db w)) =
  twitter_handles db.
Proof.
  unfold scan_for_new_spreadsheets.
  destruct (watch_files C None (Some DRIVE_FOLDER_ID) w) as [[listing|e] w1];
    [|reflexivity].
  destruct (scan_loop C listing (files db) false) as [[r f] d]. reflexivity.
Qed.

Lemma tweet_everything_unfold db w :
  tweet_everything C db w =
  (outcome (tweet_loop C (twitter_handles db) 0 (w, [])),
   {| files := files db;
      twitter_handles := store (tweet_loop C (twitter_handles db) 0 (w, [])) |},
   snd (tweet_loop C (twitter_handles db) 0 (w, []))).
Proof.
  unfold tweet_everything, OOBTree.items.
  destruct (tweet_loop C (twitter_handles db) 0 (w, [])) as [[r th'] v].
  reflexivity.
Qed.

(** The runner's part of a step: a trace over the handle registry. *)
Lemma tweet_everything_trace db w :
  Trace (twitter_handles db)
        (twitter_handles (store (tweet_everything C db w)))
        (tweets_of (tweet_everything C db w)).
Proof.
  rewrite tweet_everything_unfold. unfold tweets_of. cbn [store fst snd].
  destruct (tweet_loop_trace C (twitter_handles db) 0 w []) as (evs & Hl & Ht).
  rewrite Hl. exact Ht.
Qed.





Lemma extract_loop_keys items : forall th w,
  OOBTree.keys (fst (store (extract_loop C items th w))) = OOBTree.keys items.
Proof.
  induction items as [|[file_id file_data] rest IH]; intros th w.
  - reflexivity.
  - rewrite extract_loop_cons.
    destruct (process_file C file_id file_data th w)
      as [[[[]|e] [fd' th']] w']; [|reflexivity].
    cbn [store fst snd]. unfold OOBTree.keys in *. cbn [List.map fst].
    rewrite IH. reflexivity.
Qed.

(** Every phase keeps both trees in key order, as a BTree is. *)
Lemma step_well_formed [s s'] :
  Step C s s' -> well_formed (fst s) -> well_formed (fst s').
Proof.
  intros St [Hf Hh]. destruct St as [db log w|db log w|db log w];
    cbn [fst] in *; split.
  - unfold scan_for_new_spreadsheets.
    destruct (watch_files C None (Some DRIVE_FOLDER_ID) w)
      as [[listing|e] w1]; [|exact Hf].
    pose proof (scan_loop_in_key_order C listing (files db) false Hf) as G.
    destruct (scan_loop C listing (files db) false) as [[r f] d]. exact G.
  - rewrite scan_handles. exact Hh.
  - rewrite pass_unfold. cbn [store fst snd files]. unfold in_key_order.
    rewrite extract_loop_keys. exact Hf.
  - rewrite pass_unfold. cbn [store fst snd twitter_handles].
    apply (extract_loop_grows (files db) (twitter_handles db) w). exact Hh.
  - rewrite tweet_everything_unfold. exact Hf.
  - unfold in_key_order.
    rewrite (Forall2_keys (Trace_Forall2 (tweet_everything_trace db w))).
    exact Hh.
Qed.

Lemma reaches_well_formed [s s''] :
  Reaches C s s'' -> well_formed (fst s) -> well_formed (fst s'').
Proof.
  induction 1 as [s|s s' s'' St R IH]; intros Hw; [exact Hw|].
  apply IH. exact (step_well_formed St Hw).
Qed.

Lemma reachable_well_formed db log : Reachable C db log -> well_formed db.
Proof.
  intros R. apply (reaches_well_formed R). split; constructor.
Qed.

(** A run of [main] is a sequence of phases: what holds of every store
    reached by phases holds after any number of runs of the program. *)
Lemma main_reaches db log w :
  Reaches C (db, log) (store (main C db w), log ++ tweets_of (main C db w)).
Proof.
  unfold main.
  pose proof (step_scan C db log w) as S1.
  destruct (scan_for_new_spreadsheets C db w) as [[[[]|e1] db1] w1];
    cbn [store fst snd] in S1.
  - pose proof (step_extract C db1 log w1) as S2.
    destruct (extract_twitter_handles_from_spreadsheets C db1 w1)
      as [[[[]|e2] db2] w2]; cbn [store fst snd] in S2.
    + eapply reaches_step; [exact S1|].
      eapply reaches_step; [exact S2|].
      eapply reaches_step; [apply step_tweet|apply reaches_refl].
    + unfold tweets_of. cbn [store fst snd]. rewrite app_nil_r.
      eapply reaches_step; [exact S1|].
      eapply reaches_step; [exact S2|apply reaches_refl].
  - unfold tweets_of. cbn [store fst snd]. rewrite app_nil_r.
    eapply reaches_step; [exact S1|apply reaches_refl].
Qed.


End Progression.

(** ** What the specification says of the stage runner *)

Section RunnerClaims.
Context (C : Collaborators).


Lemma tweet_block_with_send_tweet h n :
  tweet_block_with C (send_tweet C) h n = tweet_block C h n.
Proof. reflexivity. Qed.












(** The cap, for the loop started with any count below it: the loop works
    through a first part [pre] of the items and leaves the rest [post] as
    it is; each handle of [pre] that was due a stage got one tweet, in
    order; the count never passes the cap; and a loop that completes has
    only accepted tweets and either reached the cap or the end. *)
Lemma tweet_loop_cap items : forall n w log,
  n < MAX_TWEET_COUNT ->
  exists evs pre pre' post,
    items = pre ++ post /\
    store (tweet_loop C items n (w, log)) = pre' ++ post /\
    OOBTree.keys pre' = OOBTree.keys pre /\
    snd (snd (tweet_loop C items n (w, log))) = log ++ evs /\
    List.map ev_handle evs =
    OOBTree.keys (filter (fun kv => eligible (snd kv)) pre) /\
    n + count_eligible pre <= MAX_TWEET_COUNT /\
    (outcome (tweet_loop C items n (w, log)) = Ok tt ->
     Forall (fun ev => accepted (ev_response ev) = true) evs /\
     (n + count_eligible pre = MAX_TWEET_COUNT \/ post = [])).
Proof.
  induction items as [|[h d] rest IH]; intros n w log Hn.
  - exists [], [], [], []. cbn. rewrite app_nil_r.
    repeat split; auto; lia.
  - rewrite tweet_loop_cons.
    destruct (tweet_transaction C h n d w log)
      as [[He ->]|[He (st & ev & w' & Hf & H1 & Hh & Hst &
                       [[Ha [now ->]]|[Ha [e ->]]])]].
    + destruct (Nat.leb_spec MAX_TWEET_COUNT n) as [L|_]; [lia|].
      destruct (IH n w log Hn)
        as (evs & pre & pre' & post & Hi & Hs & Hk & Hl & Hm & Hc & Ho).
      exists evs, ((h, d) :: pre), ((h, d) :: pre'), post.
      unfold count_eligible, OOBTree.keys in *.
      cbn [outcome store fst snd app filter List.map]. rewrite He.
      repeat split; try congruence; try apply Ho; auto.
    + destruct (Nat.leb_spec MAX_TWEET_COUNT (S n)) as [L|L].
      * exists [ev], [(h, d)], [(h, set_stage_field st now d)], rest.
        unfold count_eligible, OOBTree.keys.
        cbn [outcome store fst snd app filter List.map List.length]. rewrite He.
        cbn [List.map fst List.length].
        repeat split; try congruence; try lia.
        constructor; [exact Ha|constructor].
      * destruct (IH (S n) w' (log ++ [ev]) L)
          as (evs & pre & pre' & post & Hi & Hs & Hk & Hl & Hm & Hc & Ho).
        exists (ev :: evs), ((h, d) :: pre),
          ((h, set_stage_field st now d) :: pre'), post.
        unfold count_eligible, OOBTree.keys in *.
        cbn [outcome store fst snd app filter List.map List.length]. rewrite He.
        cbn [List.map fst List.length].
        repeat split; try congruence; try lia.
        all: try (rewrite Hl, <- app_assoc; reflexivity).
        all: try (constructor; [exact Ha|apply Ho; assumption]).
        all: destruct Ho as [_ [Ho|Ho]]; [assumption|left; lia|right; exact Ho].
    + exists [ev], [(h, d)], [(h, d)], rest.
      unfold count_eligible, OOBTree.keys.
      cbn [outcome store fst snd app filter List.map List.length]. rewrite He.
      cbn [List.map fst List.length].
      repeat split; try congruence; try lia; discriminate.
Qed.

Lemma count_eligible_app pre post :
  count_eligible (pre ++ post) = count_eligible pre + count_eligible post.
Proof. unfold count_eligible. rewrite filter_app, length_app. reflexivity. Qed.

Lemma MAX_TWEET_COUNT_pos : 0 < MAX_TWEET_COUNT.
Proof. unfold MAX_TWEET_COUNT. lia. Qed.


(** C1, as the code has it: when Twitter calls a tweet a duplicate
    (code 187), [send_tweet] returns without raising and the transaction
    records the stage as sent: the field of that stage, empty before,
    holds a time, and the count of the run goes up by one. The loop then
    goes on with the next handle, unless the count has reached the cap. *)
Theorem duplicate_marks_stage
    (handle_id : str) (handle_data : HandleData)
    (rest : list (str * HandleData)) (tweet_count : nat)
    (w : W C) (log : list Event) (ev : Event) (text reason : str) :
  tweets_of
    (with_transaction (tweet_block C handle_id tweet_count) handle_data
       (w, log)) = log ++ [ev] ->
  ev_response ev = TweepError (Some 187%Z) text reason ->
  outcome
    (with_transaction (tweet_block C handle_id tweet_count) handle_data
       (w, log)) = Ok (S tweet_count) /\
  stage_field (ev_stage ev) handle_data = None /\
  (exists now,
     store
       (with_transaction (tweet_block C handle_id tweet_count) handle_data
          (w, log)) = set_stage_field (ev_stage ev) now handle_data) /\
  tweet_loop C ((handle_id, handle_data) :: rest) tweet_count (w, log) =
  (let x :=
     with_transaction (tweet_block C handle_id tweet_count) handle_data
       (w, log) in
   if MAX_TWEET_COUNT <=? S tweet_count
   then (Ok tt, (handle_id, store x) :: rest, snd x)
   else (outcome (tweet_loop C rest (S tweet_count) (snd x)),
         (handle_id, store x) ::
         store (tweet_loop C rest (S tweet_count) (snd x)),
         snd (tweet_loop C rest (S tweet_count) (snd x)))) /\
  (forall msg w0 text0 reason0,
     fst (update_status C msg w0) = TweepError (Some 187%Z) text0 reason0 ->
     fst (send_tweet C msg w0) = Ok tt).
Proof.
  intros Hlog Hresp.
  assert (Hsend : forall msg w0 text0 reason0,
    fst (update_status C msg w0) = TweepError (Some 187%Z) text0 reason0 ->
    fst (send_tweet C msg w0) = Ok tt).
  { intros msg w0 text0 reason0 Hd.
    destruct (send_tweet_accepted C msg w0) as [[_ Hs]|[Ha _]];
      [exact Hs|rewrite Hd in Ha; discriminate]. }
  rewrite tweet_loop_cons. cbv zeta.
  destruct (tweet_transaction C handle_id tweet_count handle_data w log)
    as [[He E]|[He (st & ev0 & w' & Hf & H1 & Hh & Hst &
                    [[Ha [now E]]|[Ha [e E]]])]];
    rewrite E in *; unfold tweets_of in Hlog; cbn [snd] in Hlog.
  - exfalso. rewrite <- (app_nil_r log) in Hlog at 1.
    apply app_inv_head in Hlog. discriminate.
  - apply app_inv_head in Hlog. injection Hlog as ->.
    cbn [outcome store fst snd]. rewrite Hst.
    repeat split; eauto.
  - apply app_inv_head in Hlog. injection Hlog as ->.
    rewrite Hresp in Ha. discriminate.
Qed.

End RunnerClaims.

(** * Examples *)

(** C1 as stated fails: Twitter calls both tweets of a run duplicates, and
    both handles, new before the run, have [first_tweet_at] after it. *)
Lemma duplicate_send_counterexample :
  List.map first_tweet_at
    (List.map snd (twitter_handles db_two_handles)) = [None; None] /\
  List.map ev_response (tweets_of (tweet_everything duplicating db_two_handles 0%nat)) =
  [TweepError (Some 187%Z) (py "Status is a duplicate.")
     (py "Status is a duplicate.");
   TweepError (Some 187%Z) (py "Status is a duplicate.")
     (py "Status is a duplicate.")] /\
  List.map first_tweet_at
    (List.map snd
       (twitter_handles (store (tweet_everything duplicating db_two_handles 0%nat)))) =
  [Some 5%Z; Some 11%Z].
Proof. repeat split. Qed.

Lemma duplicate_marks_stage_witness :
  tweets_of
    (with_transaction (tweet_block duplicating (py "foo") 0) new_handle
       (0%nat, [])) =
  [] ++ [{| ev_handle := py "foo"; ev_stage := Stage1;
            ev_msg := py "@foo WE AT MEGACORP THINK YOU MIGHT LIKE US - http://megacorp.example.com";
            ev_response :=
              TweepError (Some 187%Z) (py "Status is a duplicate.")
                (py "Status is a duplicate.") |}] /\
  outcome
    (with_transaction (tweet_block duplicating (py "foo") 0) new_handle
       (0%nat, [])) = Ok 1%nat /\
  first_tweet_at
    (store
       (with_transaction (tweet_block duplicating (py "foo") 0) new_handle
          (0%nat, []))) = Some 5%Z.
Proof.
  split; [reflexivity|].
  split; [|reflexivity].
  exact (proj1 (duplicate_marks_stage duplicating (py "foo") new_handle []
                  0 0%nat [] _ (py "Status is a duplicate.")
                  (py "Status is a duplicate.") eq_refl eq_refl)).
Defined.

(** C2 as stated fails: the piece ["bar"] starts with no profile prefix,
    so the cell yields ["foo"] alone and ["bar"] gets no record. *)
Lemma extraction_url_and_name_counterexample :
  extract (py "https://twitter.com/foo, bar") = [py "foo"] /\
  extract (py "https://twitter.com/foo, bar") <> [py "foo"; py "bar"] /\
  OOBTree.keys
    (twitter_handles
       (store (extract_twitter_handles_from_spreadsheets working db_F1 0%nat))) =
  [py "foo"] /\
  OOBTree.get (py "bar")
    (twitter_handles
       (store (extract_twitter_handles_from_spreadsheets working db_F1 0%nat))) =
  None.
Proof. repeat split. discriminate. Qed.

Lemma extraction_of_url_and_name_witness :
  fd_processed file_F1 = false /\
  extract_twitter_handles working (py "F1") 76%N 0%nat =
  (Ok [py "foo"], 1%nat) /\
  OOBTree.get (py "foo")
    (snd (store (process_file working (py "F1") file_F1 [] 0%nat))) =
  Some {| added := 2015%Z; imported := 1%Z; sheet := py "F1";
          first_tweet_at := None; second_tweet_at := None |} /\
  OOBTree.get (py "bar")
    (snd (store (process_file working (py "F1") file_F1 [] 0%nat))) = None.
Proof.
  pose proof (extraction_of_url_and_name working (py "F1") file_F1 []
                0%nat 1%nat 2015%Z eq_refl eq_refl eq_refl)
    as (Hx & _ & _ & Hfoo & _ & Hbar).
  split; [reflexivity|]. split; [exact Hx|].
  split; [exact (Hfoo eq_refl)|exact Hbar].
Defined.




Lemma extraction_all_or_nothing_witness :
  fd_processed file_F1 = false /\
  outcome (process_file unreadable (py "F1") file_F1 [] 0%nat) =
  Raise (ServiceError (py "APIError")) /\
  store (process_file unreadable (py "F1") file_F1 [] 0%nat) = (file_F1, []) /\
  store (process_file_killed working 1 (py "F1") file_F1 [] 0%nat) =
  (file_F1, []).
Proof.
  pose proof (extraction_all_or_nothing unreadable (py "F1") file_F1 []
                0%nat eq_refl) as (Hraise & _).
  pose proof (extraction_all_or_nothing working (py "F1") file_F1 []
                0%nat eq_refl) as (_ & Hkill & _).
  split; [reflexivity|]. split; [reflexivity|].
  split; [exact (Hraise _ eq_refl)|exact (proj2 (Hkill 1))].
Defined.

(** C6: the code on a cell of two spaces. The cell is blank and has no
    ["://"], and the extractor returns one handle, the empty one, where
    the empty cell gives none: the guard [if not cell_content] comes
    before the [strip]. The pass registers the empty handle and the stage
    runner tweets at it. *)
Lemma extract_blank_cell :
  blank (py "  ") = true /\
  contains (py "://") (py "  ") = false /\
  extract (py "  ") = [[]] /\
  extract (py "  ") <> [] /\
  extract [] = [] /\
  OOBTree.keys (twitter_handles blank_extracted) = [[]] /\
  List.map ev_msg (tweets_of (tweet_everything blank_sheet blank_extracted
                                0%nat)) =
  [py "@ WE AT MEGACORP THINK YOU MIGHT LIKE US - http://megacorp.example.com"].
Proof. repeat split. discriminate. Qed.

(** The error [send_tweet] raises: the body of the response when it has
    one, [str(e)] when the body is empty, and [AttributeError] when the
    error carries no response. *)
Example send_tweet_errors :
  fst (send_tweet
         (example_world [] (Ok [])
            (fun _ => TweepError (Some 185%Z) (py "Over.") (py "limit")))
         (py "hi") 0%nat) =
  Raise (RuntimeError (py "Twitter doesn't like us: Over.")) /\
  fst (send_tweet
         (example_world [] (Ok [])
            (fun _ => TweepError None [] (py "Failed to send request")))
         (py "hi") 0%nat) =
  Raise (RuntimeError (py "Twitter doesn't like us: Failed to send request")) /\
  fst (send_tweet
         (example_world [] (Ok [])
            (fun _ => TweepErrorNoResponse (py "Failed to send request")))
         (py "hi") 0%nat) =
  Raise AttributeError.
Proof. repeat split. Qed.

Lemma extract_plain_cell_witness :
  contains (py "://") (py " foo ") = false /\
  py " foo " <> [] /\
  extract (py " foo ") = [py "foo"].
Proof.
  assert (Hne : py " foo " <> []) by discriminate.
  split; [reflexivity|]. split; [exact Hne|].
  exact (proj1 (extract_plain_cell (py " foo ") eq_refl) Hne).
Defined.

Lemma extract_profile_urls_witness :
  contains (py "://") (py "https://twitter.com/a, junk,http://twitter.com/#!/b") =
  true /\
  extract (py "https://twitter.com/a, junk,http://twitter.com/#!/b") =
  [py "a"; py "b"].
Proof.
  split; [reflexivity|].
  exact (proj1 extract_profile_urls
           (py "https://twitter.com/a, junk,http://twitter.com/#!/b") eq_refl).
Defined.

Lemma discovery_idempotent_witness :
  fst (watch_files working None (Some DRIVE_FOLDER_ID) 7%nat) =
  fst (watch_files working None (Some DRIVE_FOLDER_ID) 0%nat) /\
  OOBTree.keys (files (store (scan_for_new_spreadsheets working empty_db 0%nat))) =
  [py "F1"; py "F2"] /\
  store (scan_for_new_spreadsheets working
           (store (scan_for_new_spreadsheets working empty_db 0%nat)) 7%nat) =
  store (scan_for_new_spreadsheets working empty_db 0%nat).
Proof.
  split; [reflexivity|]. split; [reflexivity|].
  exact (proj1 (discovery_idempotent working empty_db 0%nat 7%nat eq_refl)).
Defined.

Lemma extraction_skips_processed_witness :
  fd_processed (set_processed file_F1) = true /\
  store (process_file working (py "F1") (set_processed file_F1)
           [(py "foo", new_handle)] 0%nat) =
  (set_processed file_F1, [(py "foo", new_handle)]) /\
  snd (process_file working (py "F1") (set_processed file_F1)
         [(py "foo", new_handle)] 0%nat) = 0%nat.
Proof.
  split; [reflexivity|].
  exact (proj1 (extraction_skips_processed working) (py "F1")
           (set_processed file_F1) [(py "foo", new_handle)] 0%nat eq_refl).
Defined.

Lemma discovery_empty_title_witness :
  Forall (fun f => df_title f <> [])
    [drive_file "F1" "leads 1"; drive_file "P" "photo.png"] /\
  df_title (drive_file "E" "") = [] /\
  scan_loop working
    ([drive_file "F1" "leads 1"; drive_file "P" "photo.png"] ++
     drive_file "E" "" :: [drive_file "F2" "leads 2"]) [] false =
  (Raise IndexError, [(py "F1", file_F1)], true).
Proof.
  assert (Hpre : Forall (fun f => df_title f <> [])
    [drive_file "F1" "leads 1"; drive_file "P" "photo.png"]).
  { repeat constructor; discriminate. }
  split; [exact Hpre|]. split; [reflexivity|].
  exact (proj1 (proj2 (discovery_empty_title working _
                         [drive_file "F2" "leads 2"] (drive_file "E" "")
                         [] false Hpre eq_refl))).
Defined.

(** * Further properties of the program *)

(** ** The stage runner's tweets *)

Section RunnerTweets.
Context (C : Collaborators).

Lemma random_choice_In (seq : list str) (w : W C) :
  seq <> [] -> In (fst (random_choice C seq w)) seq.
Proof.
  intros Hne. unfold random_choice.
  destruct (random_index C (List.length seq) w) as [i w1]. cbn [fst].
  apply nth_In. apply Nat.mod_upper_bound.
  destruct seq; [congruence|discriminate].
Qed.

(** The transaction of one handle, in full: the stage is the one due, the
    tweet is composed from a candidate of that stage, and a tweet that is
    not accepted raises what [refusal] says. *)
Lemma tweet_transaction_cases h n d w log :
  (eligible d = false /\
   with_transaction (tweet_block C h n) d (w, log) = (Ok n, d, (w, log))) \/
  (eligible d = true /\
   exists ev w',
     ev_handle ev = h /\ ev_stage ev = due_stage d /\
     stage_field (due_stage d) d = None /\ composed ev /\
     ((refusal (ev_response ev) = None /\
       exists now,
         with_transaction (tweet_block C h n) d (w, log) =
         (Ok (S n), set_stage_field (due_stage d) now d, (w', log ++ [ev]))) \/
      (exists e,
         refusal (ev_response ev) = Some e /\
         with_transaction (tweet_block C h n) d (w, log) =
         (Raise e, d, (w', log ++ [ev]))))).
Proof.
  assert (St : forall st, stage_field st d = None -> st = due_stage d ->
    exists ev w',
      ev_handle ev = h /\ ev_stage ev = st /\ composed ev /\
      ((refusal (ev_response ev) = None /\
        exists now,
          with_transaction (tweet_stage C st h n) d (w, log) =
          (Ok (S n), set_stage_field st now d, (w', log ++ [ev]))) \/
       (exists e,
          refusal (ev_response ev) = Some e /\
          with_transaction (tweet_stage C st h n) d (w, log) =
          (Raise e, d, (w', log ++ [ev]))))).
  { intros st _ _. unfold with_transaction, tweet_stage.
    pose proof (random_choice_In (stage_choices st) w) as Hin.
    change (match st with
            | Stage1 => FIRST_TWEET_CHOICES
            | Stage2 => SECOND_TWEET_CHOICES
            end) with (stage_choices st).
    destruct (random_choice C (stage_choices st) w) as [text w1].
    cbn [fst] in Hin.
    destruct (utcnow C w1) as [t0 w2].
    set (tweet := py "@" ++ h ++ py " " ++ text).
    set (ev := {| ev_handle := h; ev_stage := st; ev_msg := tweet;
                  ev_response := fst (update_status C tweet w2) |}).
    assert (Hc : composed ev).
    { exists text. split; [|reflexivity].
      apply Hin. destruct st; discriminate. }
    unfold send_tweet.
    destruct (update_status C tweet w2)
      as [[|code text' reason|reason] w3] eqn:U; cbn [fst] in ev.
    - destruct (randint C 0 90 w3) as [r w4].
      destruct (utcnow C (sleep C (30 + r) w4)) as [now w5].
      exists ev, w5. repeat split; [exact Hc|]. left. split; [reflexivity|].
      exists now. destruct st; reflexivity.
    - destruct (is_duplicate code) eqn:Dup.
      + destruct (randint C 0 10 w3) as [r w4].
        destruct (utcnow C (sleep C (10 + r) w4)) as [now w5].
        exists ev, w5. repeat split; [exact Hc|]. left.
        split; [cbn; rewrite Dup; reflexivity|].
        exists now. destruct st; reflexivity.
      + exists ev, w3. repeat split; [exact Hc|]. right.
        eexists. split; [cbn; rewrite Dup; reflexivity|reflexivity].
    - exists ev, w3. repeat split; [exact Hc|]. right.
      eexists. split; reflexivity. }
  unfold with_transaction, tweet_block, eligible, due_stage in *.
  destruct (first_tweet_at d) as [t1|] eqn:F1;
    [destruct (second_tweet_at d) as [t2|] eqn:F2|].
  - left. split; reflexivity.
  - right. split; [reflexivity|].
    destruct (St Stage2 F2 eq_refl) as (ev & w' & Hh & Hs & Hc & Hcase).
    exists ev, w'. repeat split; auto.
  - right. split; [destruct (second_tweet_at d); reflexivity|].
    destruct (St Stage1 F1 eq_refl) as (ev & w' & Hh & Hs & Hc & Hcase).
    exists ev, w'. repeat split; auto.
Qed.

Lemma tweet_loop_Run items : forall n w log,
  exists evs,
    snd (snd (tweet_loop C items n (w, log))) = log ++ evs /\
    Run items (store (tweet_loop C items n (w, log))) evs
        (outcome (tweet_loop C items n (w, log))).
Proof.
  induction items as [|[h d] rest IH]; intros n w log.
  - exists []. split; [simpl; rewrite app_nil_r; reflexivity|constructor].
  - rewrite tweet_loop_cons.
    destruct (tweet_transaction_cases h n d w log)
      as [[He ->]|[He (ev & w' & Hh & Hst & Hf & Hc &
                       [[Hr [now ->]]|[e [Hr ->]]])]].
    + destruct (MAX_TWEET_COUNT <=? n).
      * exists []. split; [simpl; rewrite app_nil_r; reflexivity|constructor].
      * destruct (IH n w log) as (evs & Hl & Hrun). exists evs.
        split; [exact Hl|]. apply run_skip; assumption.
    + destruct (MAX_TWEET_COUNT <=? S n).
      * exists [ev]. split; [reflexivity|].
        apply run_sent; auto. constructor.
      * destruct (IH (S n) w' (log ++ [ev])) as (evs & Hl & Hrun).
        exists (ev :: evs). cbn [snd store outcome fst].
        split; [rewrite Hl, <- app_assoc; reflexivity|].
        apply run_sent; auto.
    + exists [ev]. split; [reflexivity|]. apply run_refused; auto.
Qed.

Lemma tweet_everything_Run db w :
  Run (twitter_handles db)
      (twitter_handles (store (tweet_everything C db w)))
      (tweets_of (tweet_everything C db w))
      (outcome (tweet_everything C db w)).
Proof.
  rewrite tweet_everything_unfold. unfold tweets_of.
  cbn [store outcome fst snd twitter_handles].
  destruct (tweet_loop_Run (twitter_handles db) 0 w []) as (evs & Hl & Hrun).
  rewrite Hl. exact Hrun.
Qed.

Lemma Run_events [items items' evs r] :
  Run items items' evs r ->
  forall ev, In ev evs ->
    composed ev /\
    exists d,
      In (ev_handle ev, d) items /\ eligible d = true /\
      ev_stage ev = due_stage d /\
      match refusal (ev_response ev) with
      | None =>
          exists now,
            In (ev_handle ev, set_stage_field (due_stage d) now d) items'
      | Some e => In (ev_handle ev, d) items' /\ r = Raise e
      end.
Proof.
  induction 1 as [items|h d items items' evs r He Hrun IH
                 |h d now ev0 items items' evs r He Hh Hst Hc Hr Hrun IH
                 |h d ev0 e items He Hh Hst Hc Hr]; intros ev Hin.
  - destruct Hin.
  - destruct (IH ev Hin) as (Hc & d0 & H0 & E0 & S0 & M0). split; [exact Hc|].
    exists d0. split; [right; exact H0|]. split; [exact E0|].
    split; [exact S0|].
    destruct (refusal (ev_response ev)) as [e|].
    + destruct M0; split; [right|]; assumption.
    + destruct M0 as [now M0]. exists now. right; exact M0.
  - destruct Hin as [<-|Hin].
    + split; [exact Hc|]. exists d. rewrite Hh, Hr.
      split; [left; reflexivity|]. split; [exact He|]. split; [exact Hst|].
      exists now. left; reflexivity.
    + destruct (IH ev Hin) as (Hc' & d0 & H0 & E0 & S0 & M0).
      split; [exact Hc'|]. exists d0. split; [right; exact H0|].
      split; [exact E0|]. split; [exact S0|].
      destruct (refusal (ev_response ev)) as [e|].
      * destruct M0; split; [right|]; assumption.
      * destruct M0 as [now' M0]. exists now'. right; exact M0.
  - destruct Hin as [<-|[]]. split; [exact Hc|]. exists d. rewrite Hh, Hr.
    split; [left; reflexivity|]. split; [exact He|]. split; [exact Hst|].
    split; [left; reflexivity|reflexivity].
Qed.

Lemma composed_length ev :
  composed ev ->
  List.length (ev_msg ev) <= List.length (ev_handle ev) + 94.
Proof.
  intros (text & Hin & ->). rewrite !length_app.
  assert (Ht : List.length text <= 92).
  { destruct (ev_stage ev); cbn in Hin;
      repeat (destruct Hin as [<-|Hin]; [vm_compute; lia|]); destruct Hin. }
  change (List.length (py "@")) with 1. change (List.length (py " ")) with 1.
  lia.
Qed.

(** X1: every tweet of a run is ["@"], the handle, a space and one of the
    candidate texts of the stage it is sent for; the handle is one of the
    registry; and the tweet is at most 94 characters longer than the
    handle. *)
Theorem tweets_are_composed (db : DB) (w : W C) :
  Forall
    (fun ev =>
       composed ev /\
       OOBTree.mem (ev_handle ev) (twitter_handles db) = true /\
       List.length (ev_msg ev) <= List.length (ev_handle ev) + 94)
    (tweets_of (tweet_everything C db w)).
Proof.
  apply Forall_forall. intros ev Hin.
  destruct (Run_events (tweet_everything_Run db w) ev Hin)
    as (Hc & d & Hd & _).
  split; [exact Hc|]. split; [|apply composed_length; exact Hc].
  apply mem_In_keys. apply (in_map fst) in Hd. exact Hd.
Qed.

Lemma get_Forall2 {V : Type} (R : V -> V -> Prop) (l l' : OOBTree.t V) :
  Forall2 (fun a b => fst a = fst b /\ R (snd a) (snd b)) l l' ->
  forall k,
    match OOBTree.get k l with
    | Some v => exists v', OOBTree.get k l' = Some v' /\ R v v'
    | None => OOBTree.get k l' = None
    end.
Proof.
  induction 1 as [|[k1 v1] [k2 v2] l l' [Hk Hr] _ IH]; intros k.
  - reflexivity.
  - cbn [fst snd] in Hk, Hr. subst k2. cbn [OOBTree.get].
    destruct (PyStr.eqb k k1); [eauto|apply IH].
Qed.

(** X2: a run of the stage runner leaves the file registry as it is, adds
    and removes no handle, and keeps [added], [imported] and [sheet] of
    every record: it writes stage fields only. *)
Theorem runner_frame (db : DB) (w : W C) :
  files (store (tweet_everything C db w)) = files db /\
  OOBTree.keys (twitter_handles (store (tweet_everything C db w))) =
  OOBTree.keys (twitter_handles db) /\
  forall h,
    match OOBTree.get h (twitter_handles db) with
    | Some d =>
        exists d',
          OOBTree.get h (twitter_handles (store (tweet_everything C db w))) =
          Some d' /\
          added d' = added d /\ imported d' = imported d /\
          sheet d' = sheet d
    | None =>
        OOBTree.get h (twitter_handles (store (tweet_everything C db w))) =
        None
    end.
Proof.
  pose proof (Trace_Forall2 (tweet_everything_trace C db w)) as F.
  split; [rewrite tweet_everything_unfold; reflexivity|].
  split; [exact (Forall2_keys F)|].
  apply get_Forall2.
  eapply Forall2_impl; [|exact F].
  intros a b [Hk (_ & _ & _ & Ha & Hi & Hs)]. auto.
Qed.

(** X3: when no key occurs twice in the handle registry, a run sends at
    most one tweet to a handle; each tweet goes to a handle that was due a
    stage and is of the stage due (the first when [first_tweet_at] was
    empty, else the second); a tweet that is posted or called a duplicate
    leaves the record with just that field written; any other answer
    leaves the record as it was and the run raises: the [RuntimeError]
    whose message ends in the response text, or in [str(e)] when that text
    is empty, and [AttributeError] when the error carries no response. *)
Theorem one_stage_per_run (db : DB) (w : W C) :
  NoDup (OOBTree.keys (twitter_handles db)) ->
  NoDup (List.map ev_handle (tweets_of (tweet_everything C db w))) /\
  forall ev,
    In ev (tweets_of (tweet_everything C db w)) ->
    exists d,
      OOBTree.get (ev_handle ev) (twitter_handles db) = Some d /\
      eligible d = true /\
      ev_stage ev = due_stage d /\
      match ev_response ev with
      | StatusPosted =>
          exists now,
            OOBTree.get (ev_handle ev)
              (twitter_handles (store (tweet_everything C db w))) =
            Some (set_stage_field (due_stage d) now d)
      | TweepError code text reason =>
          if is_duplicate code then
            exists now,
              OOBTree.get (ev_handle ev)
                (twitter_handles (store (tweet_everything C db w))) =
              Some (set_stage_field (due_stage d) now d)
          else
            OOBTree.get (ev_handle ev)
              (twitter_handles (store (tweet_everything C db w))) = Some d /\
            outcome (tweet_everything C db w) =
            Raise (RuntimeError
                     (py "Twitter doesn't like us: " ++
                      (if truthy text then text else reason)))
      | TweepErrorNoResponse _ =>
          OOBTree.get (ev_handle ev)
            (twitter_handles (store (tweet_everything C db w))) = Some d /\
          outcome (tweet_everything C db w) = Raise AttributeError
      end.
Proof.
  intros ND.
  pose proof (tweet_everything_trace C db w) as Ht.
  assert (ND' : NoDup
    (OOBTree.keys (twitter_handles (store (tweet_everything C db w))))).
  { rewrite (Forall2_keys (Trace_Forall2 Ht)). exact ND. }
  split; [exact (Trace_handles_NoDup Ht ND)|].
  intros ev Hin.
  destruct (Run_events (tweet_everything_Run db w) ev Hin)
    as (_ & d & Hd & He & Hs & Hm).
  exists d. split; [apply In_get; assumption|].
  split; [exact He|]. split; [exact Hs|].
  assert (Stamped : refusal (ev_response ev) = None ->
    exists now,
      OOBTree.get (ev_handle ev)
        (twitter_handles (store (tweet_everything C db w))) =
      Some (set_stage_field (due_stage d) now d)).
  { intros E. rewrite E in Hm. destruct Hm as [now Hm].
    exists now. apply In_get; assumption. }
  assert (Refused : forall e, refusal (ev_response ev) = Some e ->
    OOBTree.get (ev_handle ev)
      (twitter_handles (store (tweet_everything C db w))) = Some d /\
    outcome (tweet_everything C db w) = Raise e).
  { intros e E. rewrite E in Hm. destruct Hm as [Hm Ho].
    split; [apply In_get; assumption|exact Ho]. }
  clear Hm. revert Stamped Refused. unfold refusal.
  destruct (ev_response ev) as [|code text reason|reason];
    intros Stamped Refused.
  - apply Stamped. reflexivity.
  - destruct (is_duplicate code).
    + apply Stamped. reflexivity.
    + apply Refused. reflexivity.
  - apply Refused. reflexivity.
Qed.

Lemma Run_outcome [items items' evs r] :
  Run items items' evs r ->
  match r with
  | Ok _ => Forall (fun ev => refusal (ev_response ev) = None) evs
  | Raise e =>
      exists pre pre' h d post evs0 ev,
        items = pre ++ (h, d) :: post /\
        items' = pre' ++ (h, d) :: post /\
        OOBTree.keys pre' = OOBTree.keys pre /\
        evs = evs0 ++ [ev] /\
        Forall (fun ev => refusal (ev_response ev) = None) evs0 /\
        ev_handle ev = h /\ ev_stage ev = due_stage d /\
        refusal (ev_response ev) = Some e
  end.
Proof.
  induction 1 as [items|h d items items' evs r He Hrun IH
                 |h d now ev0 items items' evs r He Hh Hst Hc Hr Hrun IH
                 |h d ev0 e items He Hh Hst Hc Hr].
  - constructor.
  - destruct r as [u|e]; [exact IH|].
    destruct IH as (pre & pre' & h0 & d0 & post & evs0 & ev &
                    -> & -> & Hk & Hev & Hall & Hrest).
    exists ((h, d) :: pre), ((h, d) :: pre'), h0, d0, post, evs0, ev.
    unfold OOBTree.keys in *. cbn [app List.map fst].
    repeat split; try tauto; congruence.
  - destruct r as [u|e]; [constructor; assumption|].
    destruct IH as (pre & pre' & h0 & d0 & post & evs1 & ev &
                    -> & -> & Hk & -> & Hall & Hrest).
    exists ((h, d) :: pre), ((h, set_stage_field (due_stage d) now d) :: pre'),
      h0, d0, post, (ev0 :: evs1), ev.
    unfold OOBTree.keys in *. cbn [app List.map fst].
    repeat split; try tauto; try congruence. constructor; assumption.
  - exists [], [], h, d, items, [], ev0. repeat split; auto.
Qed.

(** X4: a run of the stage runner that completes had every tweet posted or
    called a duplicate. A run that raises stopped at the one tweet that was
    not accepted, the last of the run: the record of that handle and every
    item after it are as they were, and the tweets before it were all
    accepted. What it raises is the [RuntimeError] whose message ends in
    Twitter's response text, or in [str(e)] when that text is empty; or,
    when the error came with no response, [AttributeError]. *)
Theorem runner_outcome (db : DB) (w : W C) :
  match outcome (tweet_everything C db w) with
  | Ok _ =>
      Forall (fun ev => accepted (ev_response ev) = true)
        (tweets_of (tweet_everything C db w))
  | Raise e =>
      exists pre pre' h d post evs0 ev,
        twitter_handles db = pre ++ (h, d) :: post /\
        twitter_handles (store (tweet_everything C db w)) =
        pre' ++ (h, d) :: post /\
        OOBTree.keys pre' = OOBTree.keys pre /\
        tweets_of (tweet_everything C db w) = evs0 ++ [ev] /\
        Forall (fun ev => accepted (ev_response ev) = true) evs0 /\
        ev_handle ev = h /\ ev_stage ev = due_stage d /\
        match ev_response ev with
        | StatusPosted => False
        | TweepError code text reason =>
            is_duplicate code = false /\
            e = RuntimeError
                  (py "Twitter doesn't like us: " ++
                   (if truthy text then text else reason))
        | TweepErrorNoResponse _ => e = AttributeError
        end
  end.
Proof.
  assert (A : forall r, refusal r = None -> accepted r = true).
  { intros [|code text reason|reason]; cbn; [reflexivity| |discriminate].
    destruct (is_duplicate code); [reflexivity|discriminate]. }
  pose proof (Run_outcome (tweet_everything_Run db w)) as H.
  destruct (outcome (tweet_everything C db w)) as [u|e].
  - eapply Forall_impl; [|exact H]. intros ev. apply A.
  - destruct H as (pre & pre' & h & d & post & evs0 & ev &
                   Hi & Hs & Hk & Hev & Hall & Hh & Hst & Hr).
    exists pre, pre', h, d, post, evs0, ev.
    repeat (split; [assumption|]).
    split; [eapply Forall_impl; [|exact Hall]; intros ev'; apply A|].
    split; [exact Hh|]. split; [exact Hst|].
    destruct (ev_response ev) as [|code text reason|reason]; cbn in Hr.
    + discriminate.
    + destruct (is_duplicate code); [discriminate|].
      split; [reflexivity|]. injection Hr as <-. reflexivity.
    + injection Hr as <-. reflexivity.
Qed.

End RunnerTweets.

(** ** What the extraction pass keeps *)

Section ExtractionFrame.
Context (C : Collaborators).

Lemma process_file_get file_id file_data th w h d :
  OOBTree.get h th = Some d ->
  OOBTree.get h (snd (store (process_file C file_id file_data th w))) = Some d.
Proof.
  intros H.
  destruct (outcome (process_file C file_id file_data th w)) as [[]|e] eqn:O.
  - destruct (fd_processed file_data) eqn:Hp.
    + unfold process_file. rewrite process_file_processed by assumption.
      exact H.
    + destruct (process_file_ok C file_id file_data th w Hp O)
        as (date & handles & w1 & _ & _ & ->).
      apply import_loop_get. exact H.
  - unfold process_file in *. rewrite (process_file_raise _ _ _ _ _ _ _ O).
    exact H.
Qed.

Lemma extract_loop_get items : forall th w h d,
  OOBTree.get h th = Some d ->
  OOBTree.get h (snd (store (extract_loop C items th w))) = Some d.
Proof.
  induction items as [|[file_id file_data] rest IH]; intros th w h d H.
  - exact H.
  - rewrite extract_loop_cons.
    pose proof (process_file_get file_id file_data th w h d H) as G.
    destruct (process_file C file_id file_data th w)
      as [[[[]|e] [fd' th']] w']; cbn [store fst snd] in *; [|exact G].
    apply IH. exact G.
Qed.

(** X5: the extraction pass never overwrites a handle's record: a handle
    that is registered keeps its record, stage fields included, whatever
    the sheets hold; and a record the pass adds has no stage sent. *)
Theorem extraction_keeps_handles (db : DB) (w : W C) (h : str) :
  match OOBTree.get h (twitter_handles db) with
  | Some d =>
      OOBTree.get h
        (twitter_handles
           (store (extract_twitter_handles_from_spreadsheets C db w))) = Some d
  | None =>
      forall d,
        OOBTree.get h
          (twitter_handles
             (store (extract_twitter_handles_from_spreadsheets C db w))) =
        Some d ->
        first_tweet_at d = None /\ second_tweet_at d = None
  end.
Proof.
  rewrite pass_unfold. cbn [store fst snd twitter_handles].
  destruct (OOBTree.get h (twitter_handles db)) as [d|] eqn:G.
  - apply extract_loop_get. exact G.
  - intros d H. apply get_In in H.
    destruct (extract_loop_grows C (files db) (twitter_handles db) w)
      as (_ & _ & _ & New).
    destruct (New h d H) as [Old|Fresh]; [|exact Fresh].
    exfalso. apply (in_map fst) in Old. cbn [fst] in Old.
    apply mem_In_keys in Old.
    unfold OOBTree.mem in Old. rewrite G in Old. discriminate.
Qed.

Lemma import_loop_known date file_id handles : forall th w,
  (forall h, In h handles -> OOBTree.mem h th = true) ->
  import_loop C date file_id handles th w = (th, w).
Proof.
  induction handles as [|h rest IH]; intros th w Hall; [reflexivity|].
  cbn [import_loop]. rewrite (Hall h (or_introl eq_refl)). cbn [negb].
  apply IH. intros h' Hin. apply Hall. right; exact Hin.
Qed.

(** X6: importing a list of handles a second time, from whatever file and
    at whatever time, changes nothing and does not read the clock: every
    handle of the list is registered by the first import, and a registered
    handle is passed over. *)
Theorem import_idempotent
    (date date' : timestamp) (file_id file_id' : str)
    (handles : list str) (th : OOBTree.t HandleData) (w w' : W C) :
  import_loop C date' file_id' handles
    (fst (import_loop C date file_id handles th w)) w' =
  (fst (import_loop C date file_id handles th w), w').
Proof.
  apply import_loop_known. intros h Hin. apply import_loop_mem. auto.
Qed.

Lemma same_file_refl fd : same_file fd fd.
Proof. unfold same_file; auto. Qed.

Lemma process_file_same_file file_id file_data th w :
  same_file file_data (fst (store (process_file C file_id file_data th w))).
Proof.
  destruct (outcome (process_file C file_id file_data th w)) as [[]|e] eqn:O.
  - destruct (fd_processed file_data) eqn:Hp.
    + unfold process_file. rewrite process_file_processed by assumption.
      apply same_file_refl.
    + destruct (process_file_ok C file_id file_data th w Hp O)
        as (date & handles & w1 & _ & _ & ->).
      unfold same_file. cbn. auto.
  - unfold process_file in *. rewrite (process_file_raise _ _ _ _ _ _ _ O).
    apply same_file_refl.
Qed.

Lemma extract_loop_files items : forall th w,
  Forall2 (fun a b => fst a = fst b /\ same_file (snd a) (snd b))
    items (fst (store (extract_loop C items th w))).
Proof.
  induction items as [|[file_id file_data] rest IH]; intros th w.
  - constructor.
  - rewrite extract_loop_cons.
    pose proof (process_file_same_file file_id file_data th w) as S.
    destruct (process_file C file_id file_data th w)
      as [[[[]|e] [fd' th']] w']; cbn [store fst snd] in *.
    + constructor; [split; [reflexivity|exact S]|apply IH].
    + constructor; [split; [reflexivity|exact S]|].
      clear. induction rest as [|a rest IHr]; constructor;
        [split; [reflexivity|apply same_file_refl]|exact IHr].
Qed.

(** X7: the extraction pass adds and removes no file and never changes a
    file's identifier, title or creation date, nor takes the processed
    mark away; and after a pass that completes every file is marked
    processed. *)
Theorem extraction_files_frame (db : DB) (w : W C) :
  OOBTree.keys
    (files (store (extract_twitter_handles_from_spreadsheets C db w))) =
  OOBTree.keys (files db) /\
  forall file_id,
    match OOBTree.get file_id (files db) with
    | Some fd =>
        exists fd',
          OOBTree.get file_id
            (files (store (extract_twitter_handles_from_spreadsheets C db w))) =
          Some fd' /\
          same_file fd fd' /\
          (outcome (extract_twitter_handles_from_spreadsheets C db w) = Ok tt ->
           fd_processed fd' = true)
    | None =>
        OOBTree.get file_id
          (files (store (extract_twitter_handles_from_spreadsheets C db w))) =
        None
    end.
Proof.
  rewrite pass_unfold. cbn [store outcome fst snd files].
  split; [apply extract_loop_keys|].
  intros file_id.
  pose proof (get_Forall2 _ _ _
                (extract_loop_files (files db) (twitter_handles db) w) file_id)
    as G.
  destruct (OOBTree.get file_id (files db)) as [fd|]; [|exact G].
  destruct G as (fd' & Hget & Hsame). exists fd'.
  split; [exact Hget|]. split; [exact Hsame|].
  intros O.
  pose proof (extract_loop_settles C (files db) (twitter_handles db) w O) as S.
  rewrite Forall_forall in S. apply (S (file_id, fd')). apply get_In. exact Hget.
Qed.

End ExtractionFrame.

(** ** Where handle records come from *)

Section Provenance.
Context (C : Collaborators).

Lemma Forall2_In_items {V : Type} (R : V -> V -> Prop)
    (l l' : list (str * V)) k v :
  Forall2 (fun a b => fst a = fst b /\ R (snd a) (snd b)) l l' ->
  In (k, v) l -> exists v', In (k, v') l' /\ R v v'.
Proof.
  induction 1 as [|a [k' v'] l l' [Hk Hr] _ IH]; intros Hin; [destruct Hin|].
  destruct Hin as [->|Hin].
  - cbn [fst snd] in *. subst k'. exists v'. split; [left; reflexivity|exact Hr].
  - destruct (IH Hin) as (v0 & H0 & H1). exists v0. split; [right|]; assumption.
Qed.

Lemma scan_loop_In listing : forall fs discovered x,
  In x fs -> In x (store (scan_loop C listing fs discovered)).
Proof.
  induction listing as [|file rest IH]; intros fs discovered x H.
  - exact H.
  - destruct (scan_loop_cons C file rest fs discovered) as [d' ->].
    destruct (last_char (df_title file)) as [last|]; [|exact H].
    destruct (isdigit C last); [|auto].
    apply IH. unfold discovered_files.
    destruct (OOBTree.mem (df_id file) fs) eqn:M; [exact H|].
    apply In_set_fresh; assumption.
Qed.

Lemma scan_In db w x :
  In x (files db) -> In x (files (store (scan_for_new_spreadsheets C db w))).
Proof.
  intros H. unfold scan_for_new_spreadsheets.
  destruct (watch_files C None (Some DRIVE_FOLDER_ID) w) as [[listing|e] w1];
    [|exact H].
  pose proof (scan_loop_In listing (files db) false x H) as G.
  destruct (scan_loop C listing (files db) false) as [[r f] d]. exact G.
Qed.

Lemma import_loop_new date file_id handles : forall th w h d,
  In (h, d) (fst (import_loop C date file_id handles th w)) ->
  In (h, d) th \/ (sheet d = file_id /\ added d = date).
Proof.
  induction handles as [|h0 rest IH]; intros th w h d H.
  - left; exact H.
  - cbn [import_loop] in H.
    destruct (OOBTree.mem h0 th); cbn [negb] in H; [eauto|].
    destruct (utcnow C w) as [now w1].
    destruct (IH _ _ _ _ H) as [Hin|Hnew]; [|right; exact Hnew].
    apply In_set in Hin as [Heq|Hin]; [|left; exact Hin].
    injection Heq as -> ->. right. split; reflexivity.
Qed.

Lemma process_file_new file_id file_data th w h d :
  In (h, d) (snd (store (process_file C file_id file_data th w))) ->
  In (h, d) th \/
  (sheet d = file_id /\
   parse_date C (fd_createdDate file_data) = Ok (added d) /\
   fd_processed (fst (store (process_file C file_id file_data th w))) = true).
Proof.
  destruct (outcome (process_file C file_id file_data th w)) as [[]|e] eqn:O.
  - destruct (fd_processed file_data) eqn:Hp.
    + unfold process_file. rewrite process_file_processed by assumption.
      auto.
    + destruct (process_file_ok C file_id file_data th w Hp O)
        as (date & handles & w1 & Hd & _ & ->).
      cbn [store fst snd]. intros H.
      destruct (import_loop_new _ _ _ _ _ _ _ H) as [Hin|[Hs Ha]]; [auto|].
      right. split; [exact Hs|]. split; [congruence|reflexivity].
  - unfold process_file in *. rewrite (process_file_raise _ _ _ _ _ _ _ O).
    auto.
Qed.

Lemma extract_loop_new items : forall th w h d,
  In (h, d) (snd (store (extract_loop C items th w))) ->
  In (h, d) th \/
  exists fd,
    In (sheet d, fd) (fst (store (extract_loop C items th w))) /\
    fd_processed fd = true /\
    parse_date C (fd_createdDate fd) = Ok (added d).
Proof.
  induction items as [|[file_id file_data] rest IH]; intros th w h d.
  - auto.
  - rewrite extract_loop_cons.
    pose proof (process_file_new file_id file_data th w h d) as N.
    pose proof (process_file_same_file C file_id file_data th w) as S.
    destruct (process_file C file_id file_data th w)
      as [[[[]|e] [fd' th']] w']; cbn [store fst snd] in *.
    + intros H. destruct (IH th' w' h d H) as [Hin|(fd & Hfd & Hrest)].
      * destruct (N Hin) as [Hold|(Hs & Hdate & Hp)]; [auto|].
        right. exists fd'. split; [left; congruence|].
        split; [exact Hp|]. destruct S as (_ & _ & Hc & _). congruence.
      * right. exists fd. split; [right; exact Hfd|exact Hrest].
    + intros H. destruct (N H) as [Hold|(Hs & Hdate & Hp)]; [auto|].
      right. exists fd'. split; [left; congruence|].
      split; [exact Hp|]. destruct S as (_ & _ & Hc & _). congruence.
Qed.

Lemma step_prov [s s'] :
  Step C s s' ->
  prov_items C (files (fst s)) (twitter_handles (fst s)) ->
  prov_items C (files (fst s')) (twitter_handles (fst s')).
Proof.
  intros St P. destruct St as [db log w|db log w|db log w];
    cbn [fst] in *; intros h d H.
  - rewrite scan_handles in H. destruct (P h d H) as (fd & Hfd & Hrest).
    exists fd. split; [apply scan_In; exact Hfd|exact Hrest].
  - rewrite pass_unfold in *. cbn [store fst snd files twitter_handles] in *.
    destruct (extract_loop_new _ _ _ _ _ H) as [Hold|Hnew]; [|exact Hnew].
    destruct (P h d Hold) as (fd & Hfd & Hp & Hdate).
    destruct (Forall2_In_items _ _ _ _ _
                (extract_loop_files C (files db) (twitter_handles db) w) Hfd)
      as (fd' & Hfd' & (_ & _ & Hc & Hproc)).
    exists fd'. split; [exact Hfd'|]. split; [auto|congruence].
  - destruct (Forall2_In_right
                (Trace_Forall2 (tweet_everything_trace C db w)) H)
      as (d0 & Hd0 & (_ & _ & _ & Ha & _ & Hs)).
    destruct (P h d0 Hd0) as (fd & Hfd & Hp & Hdate).
    exists fd. rewrite tweet_everything_unfold. cbn [store fst snd files].
    rewrite Hs, Ha. auto.
Qed.

Lemma reaches_prov [s s''] :
  Reaches C s s'' ->
  prov_items C (files (fst s)) (twitter_handles (fst s)) ->
  prov_items C (files (fst s'')) (twitter_handles (fst s'')).
Proof.
  induction 1 as [s|s s' s'' St R IH]; intros P; [exact P|].
  apply IH. exact (step_prov St P).
Qed.

Lemma in_key_order_NoDup {V : Type} (m : OOBTree.t V) :
  in_key_order m -> NoDup (OOBTree.keys m).
Proof.
  unfold in_key_order. induction 1 as [|k l Hs IH Hall]; constructor; [|exact IH].
  intros Hin. rewrite Forall_forall in Hall. specialize (Hall k Hin).
  assert (E : PyStr.compare k k = Eq) by (apply compare_eq_iff; reflexivity).
  cbv beta in Hall. congruence.
Qed.

Lemma reaches_trans [s s' s''] :
  Reaches C s s' -> Reaches C s' s'' -> Reaches C s s''.
Proof.
  induction 1 as [s|s s1 s' St R IH]; intros R2; [exact R2|].
  eapply reaches_step; [exact St|apply IH; exact R2].
Qed.

Lemma runs_reaches ws : forall s, Reaches C s (runs C ws s).
Proof.
  induction ws as [|w ws IH]; intros [db log]; [apply reaches_refl|].
  cbn [runs fst snd]. eapply reaches_trans; [apply main_reaches|apply IH].
Qed.

(** X8: after any number of runs of the program from a new database, each
    in any world and whatever fails in it, the store is one the phases
    reach (so what holds of those holds of it), both registries are in
    strict key order, and every handle record points, by [sheet], at a file
    of the registry that is marked processed and whose creation date is
    the record's [added]. *)
Theorem program_invariants (ws : list (W C)) :
  Reachable C (fst (runs C ws (empty_db, []))) (snd (runs C ws (empty_db, []))) /\
  well_formed (fst (runs C ws (empty_db, []))) /\
  provenance C (fst (runs C ws (empty_db, []))).
Proof.
  pose proof (runs_reaches ws (empty_db, [])) as R.
  assert (R' : Reachable C (fst (runs C ws (empty_db, [])))
                 (snd (runs C ws (empty_db, [])))).
  { unfold Reachable. destruct (runs C ws (empty_db, [])); exact R. }
  pose proof (reachable_well_formed C _ _ R') as Wf.
  split; [exact R'|]. split; [exact Wf|].
  intros h d H.
  assert (P0 : prov_items C (files (fst (empty_db, @nil Event)))
                 (twitter_handles (fst (empty_db, @nil Event)))).
  { intros ? ? []. }
  destruct (reaches_prov R P0 h d (get_In _ _ _ H)) as (fd & Hfd & Hrest).
  exists fd. split; [|exact Hrest].
  apply In_get; [|exact Hfd]. apply in_key_order_NoDup. apply Wf.
Qed.

End Provenance.

(** ** What discovery adds *)

Section DiscoveryMore.
Context (C : Collaborators).

Lemma discovered_files_mem_iff file fs k :
  OOBTree.mem k (discovered_files file fs) = true <->
  OOBTree.mem k fs = true \/ k = df_id file.
Proof.
  unfold discovered_files.
  destruct (OOBTree.mem (df_id file) fs) eqn:M.
  - split; [auto|]. intros [H| ->]; assumption.
  - rewrite !mem_In_keys, keys_set. tauto.
Qed.

Lemma scan_loop_members listing : forall fs discovered,
  outcome (scan_loop C listing fs discovered) = Ok tt ->
  forall k,
    OOBTree.mem k (store (scan_loop C listing fs discovered)) = true <->
    OOBTree.mem k fs = true \/
    exists f, In f listing /\ df_id f = k /\ accepted_title C f = true.
Proof.
  induction listing as [|file rest IH]; intros fs discovered O k.
  - cbn. split; [auto|]. intros [H|(f & [] & _)]. exact H.
  - destruct (scan_loop_cons C file rest fs discovered) as [d' E].
    rewrite E in O |- *. unfold accepted_title in *.
    destruct (last_char (df_title file)) as [last|] eqn:L; [|discriminate].
    destruct (isdigit C last) eqn:D.
    + rewrite (IH _ _ O k), discovered_files_mem_iff. split.
      * intros [[H| ->]|(f & Hin & Hid & Ha)]; auto.
        -- right. exists file. rewrite L. auto using in_eq.
        -- right. exists f. auto using in_cons.
      * intros [H|(f & [<-|Hin] & Hid & Ha)]; auto.
        right. exists f. auto.
    + rewrite (IH _ _ O k). split.
      * intros [H|(f & Hin & Hid & Ha)]; auto.
        right. exists f. auto using in_cons.
      * intros [H|(f & [<-|Hin] & Hid & Ha)]; auto.
        -- rewrite L in Ha. congruence.
        -- right. exists f. auto.
Qed.

Lemma scan_loop_new listing : forall fs discovered k fd,
  OOBTree.get k fs = None ->
  OOBTree.get k (store (scan_loop C listing fs discovered)) = Some fd ->
  exists f,
    In f listing /\ df_id f = k /\ accepted_title C f = true /\
    fd = PersistentMapping_of_file f.
Proof.
  induction listing as [|file rest IH]; intros fs discovered k fd Hn Hs.
  - cbn in Hs. congruence.
  - destruct (scan_loop_cons C file rest fs discovered) as [d' E].
    rewrite E in Hs. clear E. unfold accepted_title in *.
    destruct (last_char (df_title file)) as [last|] eqn:L;
      [|cbn in Hs; congruence].
    destruct (isdigit C last) eqn:D.
    + destruct (OOBTree.get k (discovered_files file fs)) as [v|] eqn:G.
      * rewrite (scan_loop_get C rest _ d' k v G) in Hs. injection Hs as <-.
        exists file. rewrite L. split; [apply in_eq|].
        unfold discovered_files in G.
        destruct (OOBTree.mem (df_id file) fs); [congruence|].
        destruct (PyStr.eqb k (df_id file)) eqn:Ek.
        -- apply eqb_eq in Ek; subst k. rewrite get_set_same in G.
           injection G as <-. auto.
        -- apply eqb_neq in Ek. rewrite get_set_other in G by assumption.
           congruence.
      * destruct (IH _ _ _ _ G Hs) as (f & Hin & Hrest).
        exists f. split; [apply in_cons; exact Hin|exact Hrest].
    + destruct (IH _ _ _ _ Hn Hs) as (f & Hin & Hrest).
      exists f. split; [apply in_cons; exact Hin|exact Hrest].
Qed.

(** X9: after a discovery that completes, the file registry holds the
    identifiers it held before and those of the listed files whose title
    ends in a digit, and no other; a record that is new is the copy of such
    a file of the listing, not marked processed. *)
Theorem discovery_members
    (db : DB) (w w1 : W C) (listing : list DriveFile) :
  watch_files C None (Some DRIVE_FOLDER_ID) w = (Ok listing, w1) ->
  outcome (scan_for_new_spreadsheets C db w) = Ok tt ->
  (forall k,
     OOBTree.mem k (files (store (scan_for_new_spreadsheets C db w))) = true <->
     OOBTree.mem k (files db) = true \/
     exists f, In f listing /\ df_id f = k /\ accepted_title C f = true) /\
  (forall k fd,
     OOBTree.get k (files db) = None ->
     OOBTree.get k (files (store (scan_for_new_spreadsheets C db w))) =
     Some fd ->
     fd_processed fd = false /\
     exists f,
       In f listing /\ df_id f = k /\ accepted_title C f = true /\
       fd = PersistentMapping_of_file f).
Proof.
  unfold scan_for_new_spreadsheets. intros ->.
  pose proof (scan_loop_members listing (files db) false) as M.
  pose proof (scan_loop_new listing (files db) false) as N.
  destruct (scan_loop C listing (files db) false) as [[r fs'] d'].
  cbn [outcome store fst snd files] in *. intros O. split; [exact (M O)|].
  intros k fd Hn Hs. destruct (N k fd Hn Hs) as (f & Hin & Hid & Ha & ->).
  split; [reflexivity|]. exists f. auto.
Qed.

Lemma scan_loop_flag_true listing : forall fs,
  snd (scan_loop C listing fs true) = true.
Proof.
  induction listing as [|file rest IH]; intros fs; [reflexivity|].
  cbn [scan_loop]. destruct (last_char (df_title file)) as [last|];
    [|reflexivity].
  destruct (negb (isdigit C last)); [apply IH|].
  unfold with_transaction, discover_block.
  destruct (negb (OOBTree.mem (df_id file) fs)); apply IH.
Qed.

(** X10: the flag behind the report that no new spreadsheet is available
    is accurate: discovery ends with [discovered] false exactly when the
    file registry is as it was. *)
Theorem discovered_flag (listing : list DriveFile) (fs : OOBTree.t FileData) :
  snd (scan_loop C listing fs false) = false <->
  store (scan_loop C listing fs false) = fs.
Proof.
  revert fs. induction listing as [|file rest IH]; intros fs.
  - cbn. tauto.
  - cbn [scan_loop]. destruct (last_char (df_title file)) as [last|];
      [|cbn; tauto].
    destruct (negb (isdigit C last)); [apply IH|].
    unfold with_transaction, discover_block.
    destruct (OOBTree.mem (df_id file) fs) eqn:M; cbn [negb]; [apply IH|].
    rewrite scan_loop_flag_true. split; [discriminate|].
    intros E. exfalso.
    pose proof (scan_loop_mem C rest
                  (OOBTree.set (df_id file) (PersistentMapping_of_file file) fs)
                  true (df_id file) (mem_set_same _ _ _)) as K.
    rewrite E in K. congruence.
Qed.

(** X11: the handles of a column are those of its parts, one after the
    other, and empty cells count for nothing wherever they are. *)
Theorem handles_of_cells_compose (cells cells' : list str) :
  handles_of_cells (cells ++ cells') =
  handles_of_cells cells ++ handles_of_cells cells' /\
  handles_of_cells (filter truthy cells) = handles_of_cells cells.
Proof.
  rewrite !handles_of_cells_flat_map. split; [apply flat_map_app|].
  induction cells as [|c cs IH]; [reflexivity|].
  cbn [filter]. destruct c as [|x c]; cbn [truthy].
  - rewrite IH. reflexivity.
  - cbn [flat_map]. rewrite IH. reflexivity.
Qed.

End DiscoveryMore.

(** ** Whom a run tweets at *)

Section RunnerOrder.
Context (C : Collaborators).

Lemma count_eligible_zero items :
  count_eligible items = 0 ->
  filter (fun kv : str * HandleData => eligible (snd kv)) items = [].
Proof. unfold count_eligible. apply length_zero_iff_nil. Qed.

(** X12: the tweets of a run go, one each and in key order, to the handles
    due a stage in a first part of the registry, at most [MAX_TWEET_COUNT]
    of them; when no more handles than that are due a stage, a run that
    completes has sent one to every handle that was due one. *)
Theorem runner_order (db : DB) (w : W C) :
  (exists pre post,
     twitter_handles db = pre ++ post /\
     List.map ev_handle (tweets_of (tweet_everything C db w)) =
     OOBTree.keys (filter (fun kv => eligible (snd kv)) pre)) /\
  List.length (tweets_of (tweet_everything C db w)) <= MAX_TWEET_COUNT /\
  (outcome (tweet_everything C db w) = Ok tt ->
   count_eligible (twitter_handles db) <= MAX_TWEET_COUNT ->
   List.map ev_handle (tweets_of (tweet_everything C db w)) =
   OOBTree.keys (filter (fun kv => eligible (snd kv)) (twitter_handles db))).
Proof.
  rewrite tweet_everything_unfold.
  unfold tweets_of. cbn [outcome store fst snd twitter_handles].
  destruct (tweet_loop_cap C (twitter_handles db) 0 w [] MAX_TWEET_COUNT_pos)
    as (evs & pre & pre' & post & Hi & Hs & Hk & Hl & Hm & Hc & Ho).
  cbn [app] in Hl. rewrite Hl.
  assert (Hlen : List.length evs = count_eligible pre).
  { unfold count_eligible, OOBTree.keys in *.
    rewrite <- (length_map ev_handle), Hm, length_map. reflexivity. }
  split; [exists pre, post; split; assumption|]. split; [lia|].
  intros O Hfew. destruct (Ho O) as [_ [Hfull|Hend]].
  - rewrite Hi in Hfew |- *. rewrite count_eligible_app in Hfew.
    rewrite filter_app, (count_eligible_zero post) by lia.
    rewrite app_nil_r. exact Hm.
  - subst post. rewrite app_nil_r in Hi. rewrite Hi. exact Hm.
Qed.

End RunnerOrder.

(** ** Examples of the further properties *)

Lemma one_stage_per_run_witness :
  NoDup (OOBTree.keys (twitter_handles db_two_handles)) /\
  NoDup (List.map ev_handle
           (tweets_of (tweet_everything working db_two_handles 0%nat))) /\
  targets (tweets_of (tweet_everything working db_two_handles 0%nat)) =
  [(py "bar", Stage1); (py "foo", Stage1)].
Proof.
  assert (ND : NoDup (OOBTree.keys (twitter_handles db_two_handles))).
  { repeat constructor; simpl; intuition discriminate. }
  split; [exact ND|]. split; [|reflexivity].
  exact (proj1 (one_stage_per_run working db_two_handles 0%nat ND)).
Defined.

Lemma runner_outcome_witness :
  outcome (tweet_everything refusing db_two_handles 0%nat) =
  Raise (RuntimeError
           (py "Twitter doesn't like us: User is over daily status update limit.")) /\
  List.map first_tweet_at
    (List.map snd
       (twitter_handles (store (tweet_everything refusing db_two_handles 0%nat)))) =
  [Some 5%Z; None] /\
  exists evs0 ev,
    tweets_of (tweet_everything refusing db_two_handles 0%nat) = evs0 ++ [ev] /\
    Forall (fun ev => accepted (ev_response ev) = true) evs0 /\
    ev_stage ev = Stage1.
Proof.
  split; [reflexivity|]. split; [reflexivity|].
  pose proof (runner_outcome refusing db_two_handles 0%nat) as H.
  change (outcome (tweet_everything refusing db_two_handles 0%nat))
    with (@Raise unit
            (RuntimeError
               (py "Twitter doesn't like us: User is over daily status update limit.")))
    in H.
  destruct H as (pre & pre' & h & d & post & evs0 & ev &
                 Hi & _ & _ & Hev & Hall & Hh & Hst & _).
  exists evs0, ev. split; [exact Hev|]. split; [exact Hall|].
  rewrite Hst.
  assert (In (h, d) (twitter_handles db_two_handles)) as Hin.
  { rewrite Hi. apply in_or_app. right. left. reflexivity. }
  destruct Hin as [E|[E|[]]]; injection E as _ <-; reflexivity.
Defined.

Lemma extraction_keeps_handles_witness :
  extract_twitter_handles working (py "F1") 76%N 0%nat =
  (Ok [py "foo"], 1%nat) /\
  OOBTree.get (py "foo")
    (twitter_handles
       (store (extract_twitter_handles_from_spreadsheets working db_foo_sent 0%nat))) =
  Some (set_first_tweet_at 5%Z new_handle).
Proof.
  split; [reflexivity|].
  exact (extraction_keeps_handles working db_foo_sent 0%nat (py "foo")).
Defined.

Lemma extraction_files_frame_witness :
  outcome (extract_twitter_handles_from_spreadsheets working db_F1 0%nat) =
  Ok tt /\
  exists fd',
    OOBTree.get (py "F1")
      (files (store (extract_twitter_handles_from_spreadsheets working db_F1 0%nat))) =
    Some fd' /\
    same_file file_F1 fd' /\ fd_processed fd' = true.
Proof.
  split; [reflexivity|].
  destruct (proj2 (extraction_files_frame working db_F1 0%nat) (py "F1"))
    as (fd' & Hget & Hsame & Hp).
  exists fd'. split; [exact Hget|]. split; [exact Hsame|exact (Hp eq_refl)].
Defined.

Lemma discovery_members_witness :
  watch_files working None (Some DRIVE_FOLDER_ID) 0%nat =
  (Ok example_listing, 1%nat) /\
  outcome (scan_for_new_spreadsheets working empty_db 0%nat) = Ok tt /\
  OOBTree.mem (py "F2")
    (files (store (scan_for_new_spreadsheets working empty_db 0%nat))) = true /\
  accepted_title working (drive_file "P" "photo.png") = false.
Proof.
  split; [reflexivity|]. split; [reflexivity|]. split; [|reflexivity].
  apply (proj1 (discovery_members working empty_db 0%nat 1%nat example_listing
                  eq_refl eq_refl)).
  right. exists (drive_file "F2" "leads 2").
  split; [simpl; auto|]. split; reflexivity.
Defined.

Lemma runner_order_witness :
  outcome (tweet_everything working db_two_handles 0%nat) = Ok tt /\
  count_eligible (twitter_handles db_two_handles) <= MAX_TWEET_COUNT /\
  List.map ev_handle (tweets_of (tweet_everything working db_two_handles 0%nat)) =
  [py "bar"; py "foo"].
Proof.
  assert (Hfew : count_eligible (twitter_handles db_two_handles)
                 <= MAX_TWEET_COUNT) by (vm_compute; lia).
  split; [reflexivity|]. split; [exact Hfew|].
  exact (proj2 (proj2 (runner_order working db_two_handles 0%nat))
           eq_refl Hfew).
Defined.
